(** * Recording Angel websocket service: a shallow embedding and its properties

    The development follows the Python sources module by module:

    - [PyStr]: the fragment of Python's [str] that the services rely on
      (code-point strings, [strip], [split], [lower], [endswith], [join]);
    - [SessionManager]: [app/services/session_manager.py];
    - [TranslationV2]: the caching entry point of
      [app/services/translation_service_v2.py];
    - [AssemblyAI]: the transcription bridge, [app/services/assemblyai.py],
      with the connection store written by [app/routers/websocket.py];
    - [AIProviders]: the paragraph refiner, [app/services/ai_providers.py].

    Conventions.  Dictionaries whose iteration order is never observed are
    [gmap]s; the translation cache, whose insertion order drives both the
    fuzzy lookup and the eviction, is an association list.  Session keys
    and JSON keys are opaque and only compared, so they are byte strings
    ([string]); texts whose length or characters are inspected are lists of
    code points ([pystr]).  Wall-clock readings and float ratios are exact
    rationals: a quotient of two set sizes compares with the literals 0.6
    and 0.9 in double precision exactly as the ratio compares with 3/5 and
    9/10.  [print] has no counterpart, and arguments that only feed log
    lines ([user_id]) are left out: only values returned, state written,
    messages sent and tasks spawned are modelled. *)

From Stdlib Require Import ZArith NArith QArith List String Ascii Bool Lia.
From stdpp Require Import gmap strings list fin_maps.

Local Open Scope N_scope.

(** ** Python strings *)

Module PyStr.

(** A Python [str] is a sequence of Unicode code points. *)
Abbreviation pystr := (list N).

(** Source literals are UTF-8 byte strings; [utf8_decode] reads them back
    as code points (an ill-formed tail decodes to U+FFFD). *)
Fixpoint utf8_decode (bs : list N) : pystr :=
  match bs with
  | [] => []
  | b0 :: r0 =>
    if b0 <? 128 then b0 :: utf8_decode r0
    else if b0 <? 224 then
      match r0 with
      | b1 :: r1 => ((b0 - 192) * 64 + (b1 - 128)) :: utf8_decode r1
      | _ => [65533]
      end
    else if b0 <? 240 then
      match r0 with
      | b1 :: b2 :: r2 =>
        ((b0 - 224) * 4096 + (b1 - 128) * 64 + (b2 - 128)) :: utf8_decode r2
      | _ => [65533]
      end
    else
      match r0 with
      | b1 :: b2 :: b3 :: r3 =>
        ((b0 - 240) * 262144 + (b1 - 128) * 4096 + (b2 - 128) * 64 + (b3 - 128))
          :: utf8_decode r3
      | _ => [65533]
      end
  end.

Definition py (s : string) : pystr :=
  utf8_decode (map N_of_ascii (list_ascii_of_string s)).

#[global] Arguments py : simpl never.

(** [str.isspace] on one code point (the Unicode White_Space set together
    with the four information separators, as CPython has it). *)
Definition isspace (c : N) : bool :=
  ((9 <=? c) && (c <=? 13)) || ((28 <=? c) && (c <=? 32))
  || (c =? 133) || (c =? 160) || (c =? 5760)
  || ((8192 <=? c) && (c <=? 8202))
  || (c =? 8232) || (c =? 8233) || (c =? 8239) || (c =? 8287) || (c =? 12288).

Fixpoint lstrip (s : pystr) : pystr :=
  match s with
  | c :: r => if isspace c then lstrip r else s
  | [] => []
  end.

Definition rstrip (s : pystr) : pystr := rev (lstrip (rev s)).

(** [s.strip()] *)
Definition strip (s : pystr) : pystr := rstrip (lstrip s).

(** [s.split()]: maximal runs of non-space code points, left to right.
    [cur] is the run being read, reversed. *)
Fixpoint split_aux (cur : pystr) (s : pystr) : list pystr :=
  match s with
  | [] => match cur with [] => [] | _ => [rev cur] end
  | c :: r =>
    if isspace c
    then match cur with
         | [] => split_aux [] r
         | _ => rev cur :: split_aux [] r
         end
    else split_aux (c :: cur) r
  end.

Definition split (s : pystr) : list pystr := split_aux [] s.

(** [sep.join(parts)] *)
Fixpoint join (sep : pystr) (parts : list pystr) : pystr :=
  match parts with
  | [] => []
  | [p] => p
  | p :: rest => p ++ sep ++ join sep rest
  end.

(** [s.lower()].  Exact on Basic Latin and Latin-1 (U+0000..U+00FF),
    which covers every constant of the sources; code points above
    U+00FF are left as they are. *)
Definition lower_char (c : N) : N :=
  if (65 <=? c) && (c <=? 90) then c + 32
  else if (192 <=? c) && (c <=? 222) && negb (c =? 215) then c + 32
  else c.

Definition lower (s : pystr) : pystr := map lower_char s.

Definition eqb (a b : pystr) : bool := bool_decide (a = b).

(** [s.startswith(p)] and [s.endswith(p)] *)
Fixpoint startswith (s p : pystr) : bool :=
  match p, s with
  | [], _ => true
  | _ :: _, [] => false
  | a :: p', b :: s' => (a =? b) && startswith s' p'
  end.

Definition endswith (s p : pystr) : bool := startswith (rev s) (rev p).

(** [sub in s] *)
Fixpoint contains (s sub : pystr) : bool :=
  startswith s sub ||
  match s with
  | [] => false
  | _ :: r => contains r sub
  end.

(** The class [\w] of [re] on [str] patterns: [str.isalnum] or an
    underscore.  Exact on U+0000..U+00FF; above that range every code
    point that is not white space counts as a word character. *)
Definition is_word_char (c : N) : bool :=
  ((48 <=? c) && (c <=? 57)) || ((65 <=? c) && (c <=? 90))
  || ((97 <=? c) && (c <=? 122)) || (c =? 95)
  || (c =? 170) || (c =? 178) || (c =? 179) || (c =? 181)
  || (c =? 185) || (c =? 186) || ((188 <=? c) && (c <=? 190))
  || ((192 <=? c) && (c <=? 214)) || ((216 <=? c) && (c <=? 246))
  || ((248 <=? c) && (c <=? 255))
  || ((256 <=? c) && negb (isspace c)).

End PyStr.

Import PyStr.

Local Close Scope N_scope.

(** ** Shared vocabulary *)

(** How a call ends: it returns, or an exception escapes it. *)
Inductive exn :=
| KeyError (k : string)
| AttributeError.

Inductive outcome :=
| Returned
| Raised (e : exn).

(** The settings of [app/config.py] that the modelled code reads. *)
Record Config := {
  TRANSLATION_ENABLED : bool;
  TRANSLATION_DEFAULT_TARGET : pystr;
  GOOGLE_API_KEY : string;
  PARAGRAPHIZER_PROVIDER : string;
  PARAGRAPHIZER_HTTP_URL : string;
  PARAGRAPHIZER_COOLDOWN_SECONDS : Z;
  PARAGRAPHIZER_RETRY_BACKOFF_SECONDS : Z
}.

(** ** The session registry ([SessionManager]) *)

Module SessionManager.

(** WebSocket objects are hashed by identity; so are timer tasks. *)
Definition websocket := nat.
Definition task := nat.

(** Values stored in a session's metadata dictionary. *)
Inductive meta_value :=
| MStr (s : pystr)
| MInt (n : Z).

#[global] Instance meta_value_eq_dec : EqDecision meta_value.
Proof. solve_decision. Defined.

(** The six dictionaries of [__init__]; [cancelled] logs the tasks on
    which [.cancel()] has been called, oldest first. *)
Record t := mk {
  active_sessions : gmap string (gset websocket);
  session_metadata : gmap string (gmap string meta_value);
  session_text_buffers : gmap string pystr;
  session_buffer_timers : gmap string task;
  translation_buffers : gmap string pystr;
  translation_timers : gmap string task;
  cancelled : list task
}.

Definition init : t := mk ∅ ∅ ∅ ∅ ∅ ∅ [].

Definition set_active_sessions v (st : t) : t :=
  mk v (session_metadata st) (session_text_buffers st) (session_buffer_timers st)
     (translation_buffers st) (translation_timers st) (cancelled st).
Definition set_session_metadata v (st : t) : t :=
  mk (active_sessions st) v (session_text_buffers st) (session_buffer_timers st)
     (translation_buffers st) (translation_timers st) (cancelled st).
Definition set_session_text_buffers v (st : t) : t :=
  mk (active_sessions st) (session_metadata st) v (session_buffer_timers st)
     (translation_buffers st) (translation_timers st) (cancelled st).
Definition set_session_buffer_timers v c (st : t) : t :=
  mk (active_sessions st) (session_metadata st) (session_text_buffers st) v
     (translation_buffers st) (translation_timers st) c.
Definition set_translation_buffers v (st : t) : t :=
  mk (active_sessions st) (session_metadata st) (session_text_buffers st)
     (session_buffer_timers st) v (translation_timers st) (cancelled st).
Definition set_translation_timers v c (st : t) : t :=
  mk (active_sessions st) (session_metadata st) (session_text_buffers st)
     (session_buffer_timers st) (translation_buffers st) v c.

(** [add_connection]; [now_iso] is [now_utc().isoformat()]. *)
Definition add_connection (session_id : string) (ws : websocket)
    (now_iso : pystr) (st : t) : t :=
  let st1 :=
    match active_sessions st !! session_id with
    | Some _ => st
    | None =>
      set_session_text_buffers (<[session_id := []]> (session_text_buffers st))
        (set_session_metadata
           (<[session_id := {[ "created_at"%string := MStr now_iso;
                               "paragraph_counter"%string := MInt 0 ]}]>
              (session_metadata st))
           (set_active_sessions (<[session_id := ∅]> (active_sessions st)) st))
    end in
  set_active_sessions
    (alter (fun conns => {[ws]} ∪ conns) session_id (active_sessions st1)) st1.

(** Cancelling and dropping a timer entry, shared by the two timer
    tables in [remove_connection] and the [cancel_*] methods. *)
Definition drop_timer (session_id : string) (timers : gmap string task)
    (log : list task) : gmap string task * list task :=
  match timers !! session_id with
  | Some tk => (delete session_id timers, log ++ [tk])
  | None => (timers, log)
  end.

(** [remove_connection].  [del self.session_metadata[session_id]] raises
    [KeyError] when the key is missing, after the connection set has
    already been deleted. *)
Definition remove_connection (session_id : string) (ws : websocket)
    (st : t) : t * outcome :=
  match active_sessions st !! session_id with
  | None => (st, Returned)
  | Some conns =>
    let conns' := conns ∖ {[ws]} in
    if decide (size conns' = 0)%nat then
      let st1 := set_active_sessions (delete session_id (active_sessions st)) st in
      match session_metadata st1 !! session_id with
      | None => (st1, Raised (KeyError session_id))
      | Some _ =>
        let st2 := set_session_metadata (delete session_id (session_metadata st1)) st1 in
        let st3 := set_session_text_buffers
                     (delete session_id (session_text_buffers st2)) st2 in
        let '(bt, log1) := drop_timer session_id (session_buffer_timers st3)
                                      (cancelled st3) in
        let st4 := set_session_buffer_timers bt log1 st3 in
        let st5 := set_translation_buffers
                     (delete session_id (translation_buffers st4)) st4 in
        let '(trt, log2) := drop_timer session_id (translation_timers st5)
                                      (cancelled st5) in
        (set_translation_timers trt log2 st5, Returned)
      end
    else
      (set_active_sessions (<[session_id := conns']> (active_sessions st)) st,
       Returned)
  end.

(** [broadcast_to_session].  [send_fails ws] tells whether
    [ws.send_json] raises; the result lists the sends attempted, in the
    order of the snapshot [list(self.active_sessions[session_id])]. *)
Definition broadcast_to_session {M : Type} (send_fails : websocket -> bool)
    (session_id : string) (message : M) (exclude_websocket : option websocket)
    (st : t) : t * list (websocket * M) :=
  match active_sessions st !! session_id with
  | None => (st, [])
  | Some conns =>
    let websockets_to_send :=
      match exclude_websocket with
      | Some x => List.filter (fun w => negb (Nat.eqb w x)) (elements conns)
      | None => elements conns
      end in
    let disconnected := List.filter send_fails websockets_to_send in
    (set_active_sessions
       (<[session_id := conns ∖ list_to_set disconnected]> (active_sessions st)) st,
     map (fun w => (w, message)) websockets_to_send)
  end.

Definition get_session_metadata (session_id : string) (st : t)
    : gmap string meta_value :=
  default ∅ (session_metadata st !! session_id).

Definition update_session_metadata (session_id : string)
    (updates : gmap string meta_value) (st : t) : t :=
  match session_metadata st !! session_id with
  | Some md => set_session_metadata
                 (<[session_id := updates ∪ md]> (session_metadata st)) st
  | None => st
  end.

Definition get_text_buffer (session_id : string) (st : t) : pystr :=
  default [] (session_text_buffers st !! session_id).

(** The shared shape of [add_to_text_buffer] and
    [add_to_translation_buffer]: create the entry when missing, add a
    space when the buffer has content, then append. *)
Definition buffer_append (session_id : string) (text : pystr)
    (buffers : gmap string pystr) : gmap string pystr :=
  let buffers1 :=
    match buffers !! session_id with
    | Some _ => buffers
    | None => <[session_id := []]> buffers
    end in
  let buffers2 :=
    match buffers1 !! session_id with
    | Some (_ :: _) => alter (fun b => b ++ py " ") session_id buffers1
    | _ => buffers1
    end in
  alter (fun b => b ++ text) session_id buffers2.

Definition add_to_text_buffer (session_id : string) (text : pystr) (st : t) : t :=
  set_session_text_buffers
    (buffer_append session_id text (session_text_buffers st)) st.

Definition clear_text_buffer (session_id : string) (st : t) : pystr * t :=
  let text := default [] (session_text_buffers st !! session_id) in
  (text, set_session_text_buffers (<[session_id := []]> (session_text_buffers st)) st).

(** The shared shape of [set_buffer_timer] and [set_translation_timer]. *)
Definition replace_timer (session_id : string) (timer_task : task)
    (timers : gmap string task) (log : list task) : gmap string task * list task :=
  (<[session_id := timer_task]> timers,
   match timers !! session_id with
   | Some old => log ++ [old]
   | None => log
   end).

Definition set_buffer_timer (session_id : string) (timer_task : task) (st : t) : t :=
  let '(tm, log) := replace_timer session_id timer_task
                      (session_buffer_timers st) (cancelled st) in
  set_session_buffer_timers tm log st.

Definition cancel_buffer_timer (session_id : string) (st : t) : t :=
  let '(tm, log) := drop_timer session_id (session_buffer_timers st) (cancelled st) in
  set_session_buffer_timers tm log st.

Definition get_target_language (cfg : Config) (session_id : string) (st : t)
    : meta_value :=
  let metadata := get_session_metadata session_id st in
  default (MStr (TRANSLATION_DEFAULT_TARGET cfg)) (metadata !! "target_language"%string).

Definition set_target_language (session_id : string) (language : pystr) (st : t) : t :=
  update_session_metadata session_id {[ "target_language"%string := MStr language ]} st.

Definition get_translation_buffer (session_id : string) (st : t) : pystr :=
  default [] (translation_buffers st !! session_id).

Definition add_to_translation_buffer (session_id : string) (text : pystr) (st : t) : t :=
  set_translation_buffers
    (buffer_append session_id (strip text) (translation_buffers st)) st.

Definition clear_translation_buffer (session_id : string) (st : t) : pystr * t :=
  let text := default [] (translation_buffers st !! session_id) in
  (text, set_translation_buffers (<[session_id := []]> (translation_buffers st)) st).

Definition set_translation_timer (session_id : string) (timer_task : task) (st : t) : t :=
  let '(tm, log) := replace_timer session_id timer_task
                      (translation_timers st) (cancelled st) in
  set_translation_timers tm log st.

Definition cancel_translation_timer (session_id : string) (st : t) : t :=
  let '(tm, log) := drop_timer session_id (translation_timers st) (cancelled st) in
  set_translation_timers tm log st.

(** *** Registry operations as data

    The state-changing methods, so that arbitrary call sequences can be
    quantified over.  The getters leave the registry untouched and are
    not listed. *)
Inductive op :=
| AddConnection (sid : string) (ws : websocket) (now_iso : pystr)
| RemoveConnection (sid : string) (ws : websocket)
| BroadcastToSession (send_fails : websocket -> bool) (sid : string)
                     (exclude : option websocket)
| UpdateSessionMetadata (sid : string) (updates : gmap string meta_value)
| SetTargetLanguage (sid : string) (language : pystr)
| AddToTextBuffer (sid : string) (text : pystr)
| ClearTextBuffer (sid : string)
| SetBufferTimer (sid : string) (timer_task : task)
| CancelBufferTimer (sid : string)
| AddToTranslationBuffer (sid : string) (text : pystr)
| ClearTranslationBuffer (sid : string)
| SetTranslationTimer (sid : string) (timer_task : task)
| CancelTranslationTimer (sid : string).

Definition run (o : op) (st : t) : t :=
  match o with
  | AddConnection sid ws now_iso => add_connection sid ws now_iso st
  | RemoveConnection sid ws => (remove_connection sid ws st).1
  | BroadcastToSession send_fails sid exclude =>
      (broadcast_to_session send_fails sid () exclude st).1
  | UpdateSessionMetadata sid updates => update_session_metadata sid updates st
  | SetTargetLanguage sid language => set_target_language sid language st
  | AddToTextBuffer sid text => add_to_text_buffer sid text st
  | ClearTextBuffer sid => (clear_text_buffer sid st).2
  | SetBufferTimer sid tk => set_buffer_timer sid tk st
  | CancelBufferTimer sid => cancel_buffer_timer sid st
  | AddToTranslationBuffer sid text => add_to_translation_buffer sid text st
  | ClearTranslationBuffer sid => (clear_translation_buffer sid st).2
  | SetTranslationTimer sid tk => set_translation_timer sid tk st
  | CancelTranslationTimer sid => cancel_translation_timer sid st
  end.

Definition run_all (ops : list op) (st : t) : t :=
  fold_left (fun s o => run o s) ops st.

(** A join of session [sid]. *)
Definition is_join (sid : string) (o : op) : bool :=
  match o with
  | AddConnection sid' _ _ => bool_decide (sid' = sid)
  | _ => false
  end.

(** The buffer appends and drains and the timer setters of session
    [sid]: the methods that write their table without asking whether
    the session exists. *)
Definition writes_unguarded (sid : string) (o : op) : bool :=
  match o with
  | AddToTextBuffer sid' _ | ClearTextBuffer sid' | SetBufferTimer sid' _
  | AddToTranslationBuffer sid' _ | ClearTranslationBuffer sid'
  | SetTranslationTimer sid' _ => bool_decide (sid' = sid)
  | _ => false
  end.

(** No table of the registry has an entry for [sid]. *)
Definition no_session_state (sid : string) (st : t) : Prop :=
  active_sessions st !! sid = None
  /\ session_metadata st !! sid = None
  /\ session_text_buffers st !! sid = None
  /\ session_buffer_timers st !! sid = None
  /\ translation_buffers st !! sid = None
  /\ translation_timers st !! sid = None.

(** Every session with connections has metadata, as [add_connection]
    establishes and every method maintains. *)
Definition consistent (st : t) : Prop :=
  forall sid, is_Some (active_sessions st !! sid) ->
              is_Some (session_metadata st !! sid).

End SessionManager.

(** ** The caching translation service ([TranslationServiceV2]) *)

Module TranslationV2.

(** The provider selected by [config.TRANSLATION_PROVIDER]:
    [translate_stream] gives the chunks the provider's async generator
    yields (up to the point where it stops or fails). *)
Record TranslationProvider := {
  is_available : bool;
  provider_translate_stream : string -> pystr -> pystr -> pystr -> list pystr
}.

(** One invocation of the provider's [translate_stream]. *)
Record provider_call := {
  call_session : string;
  call_text : pystr;
  call_target : pystr;
  call_source : pystr
}.

(** [self._translation_cache]: a [dict], iterated in insertion order. *)
Definition cache := list (pystr * pystr).

Definition _cache_max_size : nat := 1000.

Fixpoint cache_get (k : pystr) (c : cache) : option pystr :=
  match c with
  | [] => None
  | (k', v) :: r => if eqb k' k then Some v else cache_get k r
  end.

(** [c[k] = v]: overwrite in place, or append. *)
Fixpoint cache_set (k v : pystr) (c : cache) : cache :=
  match c with
  | [] => [(k, v)]
  | (k', v') :: r => if eqb k' k then (k', v) :: r else (k', v') :: cache_set k v r
  end.

Definition words (s : pystr) : gset pystr := list_to_set (split s).

(** [_texts_are_similar]; the threshold is a rational and the float
    quotient [intersection / union] is the exact ratio. *)
Definition _texts_are_similar (text1 text2 : pystr) (threshold : Q) : bool :=
  if eqb text1 text2 then true else
  let words1 := words text1 in
  let words2 := words text2 in
  if bool_decide (words1 = ∅) || bool_decide (words2 = ∅) then false else
  let intersection := size (words1 ∩ words2) in
  let union := size (words1 ∪ words2) in
  if (union =? 0)%nat then false else
  Qle_bool threshold (Z.of_nat intersection # Pos.of_nat union).

Definition error_patterns : list pystr :=
  map py ["error"; "failed"; "unable"; "sorry"; "i cannot"; "i'm sorry";
          "no translation"; "translation failed"; "api error"]%string.

Definition _is_valid_translation (translation : pystr) : bool :=
  match translation, strip translation with
  | [], _ | _, [] => false
  | _, _ =>
    let translation_lower := strip (lower translation) in
    if existsb (contains translation_lower) error_patterns then false
    else if (length (strip translation) <? 3)%nat then false
    else true
  end.

(** The service's [translate_stream]: the configured provider's chunks,
    and the provider call made to get them, if any. *)
Definition translate_stream (provider : option TranslationProvider)
    (session_id : string) (text target_lang source_lang : pystr)
    : list pystr * list provider_call :=
  match provider with
  | None => ([], [])
  | Some p =>
    if negb (is_available p) then ([], [])
    else match strip text with
         | [] => ([], [])
         | _ => (provider_translate_stream p session_id text target_lang source_lang,
                 [Build_provider_call session_id text target_lang source_lang])
         end
  end.

Definition pair_suffix (source_lang target_lang : pystr) : pystr :=
  py "_" ++ source_lang ++ py "_" ++ target_lang.

(** The fuzzy scan of [translate_text]: the first entry, in insertion
    order, with the language-pair suffix and a similar text. *)
Fixpoint fuzzy_lookup (clean_lower suffix : pystr) (c : cache) : option pystr :=
  match c with
  | [] => None
  | (existing_key, cached_result) :: r =>
    if endswith existing_key suffix
       && _texts_are_similar clean_lower
            (take (length existing_key - length suffix) existing_key) (9 # 10)
    then Some cached_result
    else fuzzy_lookup clean_lower suffix r
  end.

(** Dropping the oldest tenth of a full cache. *)
Definition evict (c : cache) : cache :=
  if (_cache_max_size <=? length c)%nat
  then drop (Nat.max 1 (length c / 10)) c
  else c.

(** [translate_text]: the result, the cache afterwards and the provider
    calls made. *)
Definition translate_text (provider : option TranslationProvider)
    (session_id : string) (text target_lang source_lang : pystr) (c : cache)
    : option pystr * cache * list provider_call :=
  let clean_text := strip text in
  match clean_text with
  | [] => (None, c, [])
  | _ =>
    let suffix := pair_suffix source_lang target_lang in
    let cache_key := lower clean_text ++ suffix in
    match cache_get cache_key c with
    | Some cached_result => (Some cached_result, c, [])
    | None =>
      match fuzzy_lookup (lower clean_text) suffix c with
      | Some cached_result => (Some cached_result, c, [])
      | None =>
        let '(chunks, calls) :=
          translate_stream provider session_id text target_lang source_lang in
        let result := match chunks with
                      | [] => None
                      | _ => Some (join (py " ") chunks)
                      end in
        match result with
        | Some (ch :: res) =>
          if _is_valid_translation (ch :: res)
          then (result, cache_set cache_key (ch :: res) (evict c), calls)
          else (result, c, calls)
        | _ => (result, c, calls)
        end
      end
    end
  end.

(** The similarity of the specification: the Jaccard index of the two
    word sets, and 0 when there is no word at all. *)
Definition jaccard (a b : pystr) : Q :=
  let u := size (words a ∪ words b) in
  if (u =? 0)%nat then 0%Q
  else (Z.of_nat (size (words a ∩ words b)) # Pos.of_nat u).

(** [key] is a cache key of the language pair behind [suffix] whose
    text part is similar to [clean_lower] at 0.9 or more. *)
Definition fuzzy_match (clean_lower suffix key : pystr) : Prop :=
  suffix `suffix_of` key
  /\ (9 # 10 <= jaccard clean_lower (take (length key - length suffix) key))%Q.

End TranslationV2.

(** ** The transcription bridge ([assemblyai.py]) *)

Module AssemblyAI.

(** *** Text heuristics *)

Definition terminal_punctuation : list pystr := map py ["."; "!"; "?"; ":"]%string.

Definition religious_endings : list pystr :=
  map py ["amén"; " amén"; "jesús"; "cristo"; "espíritu"; "santo"; "padre"]%string.

Definition _is_text_complete_enough (text : pystr) : bool :=
  match text, strip text with
  | [], _ | _, [] => false
  | _, _ =>
    let text := strip text in
    if (length text <? 5)%nat then false
    else if existsb (endswith text) terminal_punctuation then true
    else
      let text_lower := lower text in
      if existsb (endswith text_lower) religious_endings then true
      else
        let word_count := length (split text) in
        if (3 <=? word_count)%nat && (15 <=? length text)%nat then true
        else false
  end.

(** The text ends with one of [ends]. *)
Definition ends_with_one_of (ends : list pystr) (t : pystr) : Prop :=
  exists e, e ∈ ends /\ e `suffix_of` t.

(** The acceptance condition as the specification words it, read on the
    trimmed text [t]. *)
Definition complete_enough (t : pystr) : Prop :=
  (5 <= length t)%nat /\
  (ends_with_one_of terminal_punctuation t
   \/ ends_with_one_of religious_endings (lower t)
   \/ ((3 <= length (split t))%nat /\ (15 <= length t)%nat)).

Definition filler_words : list pystr :=
  map py ["oh"; "um"; "ah"; "eh"; "er"; "uh"; "hmm"; "mm"; "wait"; "espera";
          "obtener"; "recibiendo"; "viendo"; "traduccion"; "traduction";
          "ingles"; "inglés"; "english"; "spanish"; "español"; "al"; "la";
          "el"; "los"; "las"; "un"; "una"; "de"; "del"; "y"; "o"; "pero";
          "porque"; "que"; "como"; "cuando"; "donde"]%string.

Definition _normalize_text (text : pystr) : pystr :=
  match text with
  | [] => []
  | _ =>
    let text := lower text in
    let text := join (py " ") (split text) in
    (* re.sub(r'[^\w\s]', '', text) *)
    let text := List.filter (fun c => is_word_char c || isspace c) text in
    let words := split text in
    let filtered_words :=
      List.filter (fun word => negb (existsb (eqb word) filler_words)
                               && (2 <? length word)%nat) words in
    join (py " ") filtered_words
  end.

(** [_calculate_similarity]; the float result is the exact ratio. *)
Definition _calculate_similarity (text1 text2 : pystr) : Q :=
  if eqb text1 text2 then 1%Q else
  let text1_norm := _normalize_text text1 in
  let text2_norm := _normalize_text text2 in
  if eqb text1_norm text2_norm then 1%Q else
  let words1 : gset pystr := list_to_set (split text1_norm) in
  let words2 : gset pystr := list_to_set (split text2_norm) in
  if bool_decide (words1 = ∅) || bool_decide (words2 = ∅) then 0%Q else
  let intersection := size (words1 ∩ words2) in
  let union := size (words1 ∪ words2) in
  if (union =? 0)%nat then 0%Q
  else (Z.of_nat intersection # Pos.of_nat union).

(** *** Provider events *)

(** What [json.loads] produces. *)
#[local] Set Warnings "-register-all".
Inductive pyval :=
| VNone
| VBool (b : bool)
| VInt (n : Z)
| VFloat (q : Q)
| VStr (s : pystr)
| VList (l : list pyval)
| VDict (d : list (pystr * pyval)).

#[local] Set Warnings "register-all".

(** Truth value testing. *)
Definition truthy (v : pyval) : bool :=
  match v with
  | VNone => false
  | VBool b => b
  | VInt n => negb (n =? 0)%Z
  | VFloat q => negb (Qnum q =? 0)%Z
  | VStr s => match s with [] => false | _ => true end
  | VList l => match l with [] => false | _ => true end
  | VDict d => match d with [] => false | _ => true end
  end.

(** [x and y], [x or y] (both return one of their operands). *)
Definition py_and (x y : pyval) : pyval := if truthy x then y else x.
Definition py_or (x y : pyval) : pyval := if truthy x then x else y.

(** A decoded provider event: a dictionary with string keys. *)
Definition event_data := gmap string pyval.

Definition get (data : event_data) (k : string) (dflt : pyval) : pyval :=
  default dflt (data !! k).

(** [v == lit] for a string literal [lit]; [None] is a missing key. *)
Definition is_str (v : option pyval) (lit : string) : bool :=
  match v with
  | Some (VStr s) => eqb s (py lit)
  | _ => false
  end.

(** *** Messages to clients *)

Definition client_ws := nat.
Definition provider_ws := nat.

Record live_data := {
  live_text : pystr;
  live_text_translated : option pystr;
  live_target_language : option pystr;
  live_translation_status : pystr;
  live_timestamp : pystr;
  live_session_id : string;
  is_final : pyval
}.

(** The two shapes of [translation_update]: the result carries
    [is_final], the failure report carries [error]. *)
Record translation_data := {
  original_text : pystr;
  text_translated : option pystr;
  target_language : pystr;
  translation_status : pystr;
  timestamp : pystr;
  tu_session_id : string;
  tu_is_final : option bool;
  tu_error : option pystr
}.

Inductive error_text :=
| TranscriptionError (detail : pyval)
| FailedToProcessAudio (e : pystr).

Inductive message :=
| live_transcript (d : live_data)
| translation_update (d : translation_data)
| error (m : error_text).

(** What a call does to the outside, in program order. *)
Inductive event :=
| SendJson (ws : client_ws) (m : message)
| ProviderSend (ws : provider_ws) (audio_data : list Byte.byte)
| SpawnTranslate (session_id : string) (transcript_text target_language : pystr)
                 (original_message : message)
| ProviderTranslate (c : TranslationV2.provider_call).

(** *** Module state *)

Record state := mk {
  assembly_sessions : gmap string provider_ws;
  active_connections : gmap string client_ws;
  translated_texts : gmap string (gset pystr);
  last_translation_times : gmap string Q;
  _translation_cache : TranslationV2.cache
}.

Definition init : state := mk ∅ ∅ ∅ ∅ [].

(** [await active_connections[session_id].send_json(m)] under its
    membership test. *)
Definition send_to_client (session_id : string) (m : message) (st : state)
    : list event :=
  match active_connections st !! session_id with
  | Some ws => [SendJson ws m]
  | None => []
  end.

(** [websocket_endpoint] storing the accepted socket (websocket.py). *)
Definition store_connection (session_id : string) (ws : client_ws) (st : state)
    : state :=
  mk (assembly_sessions st) (<[session_id := ws]> (active_connections st))
     (translated_texts st) (last_translation_times st) (_translation_cache st).

(** *** Inbound provider events *)

Definition handle_assemblyai_message (cfg : Config) (now_iso : pystr)
    (session_id : string) (data : event_data) (st : state)
    : outcome * list event :=
  let msg_type := data !! "type"%string in
  if is_str msg_type "Begin" then (Returned, [])
  else if is_str msg_type "Turn" then
    let transcript := get data "transcript" (VStr []) in
    let end_of_turn := get data "end_of_turn" (VBool false) in
    let turn_is_formatted := get data "turn_is_formatted" (VBool false) in
    if negb (truthy transcript) then (Returned, [])
    else match transcript with
    | VStr s =>
      match strip s with
      | [] => (Returned, [])
      | transcript_text =>
        let enabled := TRANSLATION_ENABLED cfg in
        let live_message := live_transcript {|
          live_text := transcript_text;
          live_text_translated := None;
          live_target_language := if enabled then Some (py "es") else None;
          live_translation_status :=
            if enabled && negb (truthy end_of_turn) then py "translating"
            else if negb enabled then py "disabled" else py "ready";
          live_timestamp := now_iso;
          live_session_id := session_id;
          is_final :=
            py_and end_of_turn
              (py_or turn_is_formatted
                 (VBool (bool_decide (is_Some (data !! "turn_is_formatted"%string)))))
        |} in
        (Returned,
         send_to_client session_id live_message st ++
         if enabled && truthy end_of_turn && _is_text_complete_enough transcript_text
         then [SpawnTranslate session_id transcript_text (py "es") live_message]
         else [])
      end
    | _ => (Raised AttributeError, [])
    end
  else if is_str msg_type "Termination" then (Returned, [])
  else
    match data !! "error"%string with
    | Some detail => (Returned, send_to_client session_id (error (TranscriptionError detail)) st)
    | None => (Returned, [])
    end.

(** *** Asynchronous translation *)

Section Translate.

(** [list(s)] for a set [s]: CPython enumerates a set in hash-table
    order, which the program does not control. *)
Variable set_order : gset pystr -> list pystr.

(** The configured translation provider. *)
Variable provider : option TranslationV2.TranslationProvider.

Definition set_translation_state (texts : gmap string (gset pystr))
    (times : gmap string Q) (c : TranslationV2.cache) (st : state) : state :=
  mk (assembly_sessions st) (active_connections st) texts times c.

(** The throttle test at the head of [translate_and_broadcast_async]. *)
Definition throttled (current_time : Q) (session_id : string) (st : state) : bool :=
  match last_translation_times st !! session_id with
  | Some last => negb (Qle_bool 1 (current_time - last))
  | None => false
  end.

(** [set(list(s)[-50:])] once the set holds more than 100 entries. *)
Definition cap_dedup_set (s : gset pystr) : gset pystr :=
  if (100 <? size s)%nat
  then let l := set_order s in list_to_set (drop (length l - 50) l)
  else s.

(** [translate_and_broadcast_async].  [current_time] is [time.time()]
    and [now_iso] is [now_utc().isoformat()].  The [except] handler has
    no counterpart: nothing in the modelled [try] block raises, the
    service catching its provider's failures itself. *)
Definition translate_and_broadcast_async (now_iso : pystr) (current_time : Q)
    (session_id : string) (transcript_text target_language : pystr)
    (original_message : message) (st : state) : state * list event :=
  if throttled current_time session_id st then (st, [])
  else
    let clean_text := _normalize_text transcript_text in
    let st1 :=
      match translated_texts st !! session_id with
      | Some _ => st
      | None => set_translation_state (<[session_id := ∅]> (translated_texts st))
                  (last_translation_times st) (_translation_cache st) st
      end in
    let seen := default ∅ (translated_texts st1 !! session_id) in
    if bool_decide (clean_text ∈ seen) then (st1, [])
    else if existsb (fun existing_text =>
                       negb (Qle_bool (_calculate_similarity clean_text existing_text)
                                      (6 # 10)))
                    (elements seen)
    then (st1, [])
    else
      let times := <[session_id := current_time]> (last_translation_times st1) in
      let texts := <[session_id := cap_dedup_set ({[clean_text]} ∪ seen)]>
                     (translated_texts st1) in
      let '(translated_text, c, calls) :=
        TranslationV2.translate_text provider session_id transcript_text
          target_language (py "auto") (_translation_cache st1) in
      let st2 := set_translation_state texts times c st1 in
      let translation_message := translation_update {|
        original_text := transcript_text;
        text_translated := translated_text;
        target_language := target_language;
        translation_status :=
          match translated_text with
          | Some (_ :: _) => py "success"
          | _ => py "failed"
          end;
        timestamp := now_iso;
        tu_session_id := session_id;
        tu_is_final := Some true;
        tu_error := None
      |} in
      (st2, map ProviderTranslate calls
            ++ send_to_client session_id translation_message st2).

End Translate.

(** *** Outbound audio *)

(** [process_audio_chunk].  [send_error] is [Some (str e)] when
    [websocket.send(audio_data)] raises [e]. *)
Definition process_audio_chunk (session_id : string) (audio_data : list Byte.byte)
    (send_error : option pystr) (st : state) : outcome * list event :=
  if (length audio_data <? 100)%nat then (Returned, [])
  else
    match assembly_sessions st !! session_id with
    | None => (Returned, [])
    | Some websocket =>
      (Returned,
       ProviderSend websocket audio_data ::
       match send_error with
       | None => []
       | Some e => send_to_client session_id (error (FailedToProcessAudio e)) st
       end)
    end.

(** *** Vocabulary for the properties *)

(** The [live_transcript] payloads among the sends of a call, with
    their recipients. *)
Definition live_transcripts_sent (evs : list event) : list (client_ws * live_data) :=
  flat_map (fun e => match e with
                     | SendJson ws (live_transcript d) => [(ws, d)]
                     | _ => []
                     end) evs.

Definition is_provider_call (e : event) : bool :=
  match e with ProviderTranslate _ => true | _ => false end.

Definition is_translation_update (e : event) : bool :=
  match e with SendJson _ (translation_update _) => true | _ => false end.

(** A call lets its caller or the client know of a failure: an
    exception escapes it, or it sends an [error] message. *)
Definition surfaces_error (r : outcome * list event) : Prop :=
  (exists e, r.1 = Raised e) \/ (exists ws m, SendJson ws (error m) ∈ r.2).

(** The calls into the bridge that can send to a client. *)
Inductive bridge_call :=
| HandleMessage (cfg : Config) (now_iso : pystr) (session_id : string)
                (data : event_data)
| TranslateAndBroadcast (now_iso : pystr) (current_time : Q) (session_id : string)
                        (transcript_text target_language : pystr)
                        (original_message : message)
| ProcessAudioChunk (session_id : string) (audio_data : list Byte.byte)
                    (send_error : option pystr).

Definition call_session (c : bridge_call) : string :=
  match c with
  | HandleMessage _ _ sid _ | TranslateAndBroadcast _ _ sid _ _ _
  | ProcessAudioChunk sid _ _ => sid
  end.





(** A full dedup set: one hundred normalized texts, [psalm00] to
    [psalm99]. *)
Definition full_dedup_set : gset pystr :=
  list_to_set
    (map (fun i => py "psalm" ++ [N.of_nat (48 + i / 10); N.of_nat (48 + i mod 10)])
         (seq 0 100)).

Section Calls.

Variable set_order : gset pystr -> list pystr.
Variable provider : option TranslationV2.TranslationProvider.

Definition run_call (c : bridge_call) (st : state) : state * list event :=
  match c with
  | HandleMessage cfg now_iso sid data =>
      (st, (handle_assemblyai_message cfg now_iso sid data st).2)
  | TranslateAndBroadcast now_iso current_time sid text target original =>
      translate_and_broadcast_async set_order provider now_iso current_time sid
        text target original st
  | ProcessAudioChunk sid audio send_error =>
      (st, (process_audio_chunk sid audio send_error st).2)
  end.

(** Running calls in order; each event is tagged with the session of
    the call that produced it. *)
Fixpoint run_calls (cs : list bridge_call) (st : state)
    : state * list (string * event) :=
  match cs with
  | [] => (st, [])
  | c :: rest =>
    let '(st1, evs) := run_call c st in
    let '(st2, more) := run_calls rest st1 in
    (st2, map (fun e => (call_session c, e)) evs ++ more)
  end.

End Calls.

End AssemblyAI.

(** ** The paragraph refiner ([ai_providers.py]) *)

Module AIProviders.

Import AssemblyAI.

(** The payload of a refinement request. *)
Record paragraph_data := {
  buffered_text : pystr;
  verses : list pystr;
  paragraph_number : option Z
}.

(** What [client.post] answers: the status, the [Retry-After] header if
    present, and the decoded JSON body ([None] when [resp.json()]
    fails). *)
Record http_response := {
  status_code : Z;
  retry_after : option pystr;
  json : option (gmap string pyval)
}.

(** The outside world during one refinement attempt; [None] stands for
    a call that raises. *)
Record world := {
  gemini_text : option pystr;
  http_post : option http_response;
  lemur_post : option http_response
}.

Inductive event :=
| GeminiCall (text : pystr)
| HttpPost (session_id : string) (text : pystr)
| LemurPost (text : pystr)
| CreateTask_refine_after_delay (session_id : string) (pd : paragraph_data)
                                (delay_seconds : Q)
| Broadcast_paragraph_refined (session_id : string) (number : option Z)
                              (refined_text completed_at : pystr).

(** [paragraphizer_last_call_at], in seconds. *)
Definition state := gmap string Q.

Section Refine.

(** [float(s)] on a header value; [None] when it raises [ValueError]. *)
Variable py_float : pystr -> option Q.

Variable cfg : Config.

(** The [try: float(retry_after) except (TypeError, ValueError)] block
    shared by the two HTTP backends. *)
Definition backoff_of (retry_after : option pystr) : Q :=
  match retry_after with
  | Some h => match py_float h with
              | Some q => q
              | None => inject_Z (PARAGRAPHIZER_RETRY_BACKOFF_SECONDS cfg)
              end
  | None => inject_Z (PARAGRAPHIZER_RETRY_BACKOFF_SECONDS cfg)
  end.

Definition get_or_none (data : gmap string pyval) (k : string) : pyval :=
  default VNone (data !! k).

Definition _refine_with_gemini (w : world) (text : pystr) : pyval * list event :=
  if bool_decide (GOOGLE_API_KEY cfg = ""%string) then (VNone, [])
  else
    (match gemini_text w with
     | Some (c :: r) => VStr (strip (c :: r))
     | _ => VNone
     end, [GeminiCall text]).

Definition _refine_with_http (w : world) (session_id : string) (text : pystr)
    (pd : paragraph_data) : pyval * list event :=
  if bool_decide (PARAGRAPHIZER_HTTP_URL cfg = ""%string) then (VNone, [])
  else
    match http_post w with
    | None => (VNone, [HttpPost session_id text])
    | Some resp =>
      if (status_code resp =? 429)%Z then
        let backoff := backoff_of (retry_after resp) in
        (VNone, [HttpPost session_id text;
                 CreateTask_refine_after_delay session_id pd backoff])
      else if (status_code resp <? 400)%Z then
        match json resp with
        | Some data =>
          (py_or (get_or_none data "refined_text")
             (py_or (get_or_none data "text") (get_or_none data "response")),
           [HttpPost session_id text])
        | None => (VNone, [HttpPost session_id text])
        end
      else (VNone, [HttpPost session_id text])
    end.

Definition _refine_with_lemur (w : world) (text : pystr) : pyval * list event :=
  match lemur_post w with
  | None => (VNone, [LemurPost text])
  | Some resp =>
    if (status_code resp =? 429)%Z then
      let backoff := backoff_of (retry_after resp) in
      (VNone, [LemurPost text])
    else if (status_code resp <? 400)%Z then
      match json resp with
      | Some data =>
        (py_or (get_or_none data "response")
           (py_or (get_or_none data "responses")
              (py_or (get_or_none data "result") (get_or_none data "text"))),
         [LemurPost text])
      | None => (VNone, [LemurPost text])
      end
    else (VNone, [LemurPost text])
  end.

(** [refine_and_broadcast_paragraph]; [now] is [now_utc()] in seconds
    and [completed_at] its later ISO rendering.  A truthy result that
    is not a string makes [refined_text.strip()] raise inside the
    [try], which ends the call silently. *)
Definition refine_and_broadcast_paragraph (w : world) (now : Q)
    (completed_at : pystr) (session_id : string) (pd : paragraph_data)
    (st : state) : state * list event :=
  let cooldown := inject_Z (PARAGRAPHIZER_COOLDOWN_SECONDS cfg) in
  let cooling :=
    match st !! session_id with
    | Some last_call =>
      let delta := (now - last_call)%Q in
      if negb (Qle_bool cooldown delta) then Some (cooldown - delta)%Q else None
    | None => None
    end in
  match cooling with
  | Some delay => (st, [CreateTask_refine_after_delay session_id pd delay])
  | None =>
    let text := match buffered_text pd with
                | [] => join [10%N] (verses pd)
                | t => t
                end in
    match text with
    | [] => (st, [])
    | _ =>
      let '(refined_text, evs) :=
        if bool_decide (PARAGRAPHIZER_PROVIDER cfg = "gemini"%string)
        then _refine_with_gemini w text
        else if bool_decide (PARAGRAPHIZER_PROVIDER cfg = "http"%string)
        then _refine_with_http w session_id text pd
        else _refine_with_lemur w text in
      if truthy refined_text then
        match refined_text with
        | VStr s =>
          match strip s with
          | [] => (st, evs)
          | stripped =>
            (<[session_id := now]> st,
             evs ++ [Broadcast_paragraph_refined session_id
                       (paragraph_number pd) stripped completed_at])
          end
        | _ => (st, evs)
        end
      else (st, evs)
    end
  end.

(** [_refine_after_delay] sleeps [max(0.0, delay_seconds)] and then
    refines again: the retry cannot start before this instant. *)
Definition retry_not_before (spawned_at delay_seconds : Q) : Q :=
  (spawned_at + (if Qle_bool 0 delay_seconds then delay_seconds else 0))%Q.

End Refine.

End AIProviders.

(** * Further parts of the services

    The remaining functions of the files above, their callers in
    [app/routers/websocket.py], and two small helpers of
    [app/utils/time.py] and [app/services/translation.py]. *)

(** ** Registry vocabulary *)

Module Registry.

Import SessionManager.

(** The session an operation is called for. *)
Definition op_session (o : op) : string :=
  match o with
  | AddConnection sid _ _ | RemoveConnection sid _ | BroadcastToSession _ sid _
  | UpdateSessionMetadata sid _ | SetTargetLanguage sid _ | AddToTextBuffer sid _
  | ClearTextBuffer sid | SetBufferTimer sid _ | CancelBufferTimer sid
  | AddToTranslationBuffer sid _ | ClearTranslationBuffer sid
  | SetTranslationTimer sid _ | CancelTranslationTimer sid => sid
  end.

(** Everything the registry holds for one session. *)
Definition session_view (sid : string) (st : t) :=
  (active_sessions st !! sid, session_metadata st !! sid,
   session_text_buffers st !! sid, session_buffer_timers st !! sid,
   translation_buffers st !! sid, translation_timers st !! sid).

(** The connections a broadcast writes to: the members of the session
    other than the excluded one. *)
Definition addressed (conns : gset websocket) (exclude : option websocket)
    (w : websocket) : Prop :=
  w ∈ conns /\ exclude <> Some w.

(** Appending texts one after the other, oldest first. *)
Definition add_all_to_text_buffer (sid : string) (texts : list pystr) (st : t) : t :=
  fold_left (fun s text => add_to_text_buffer sid text s) texts st.

Definition add_all_to_translation_buffer (sid : string) (texts : list pystr)
    (st : t) : t :=
  fold_left (fun s text => add_to_translation_buffer sid text s) texts st.

(** Every session with metadata has a connection-set entry. *)
Definition metadata_has_session (st : t) : Prop :=
  forall sid, is_Some (session_metadata st !! sid) ->
              is_Some (active_sessions st !! sid).

End Registry.

(** ** Translation cache vocabulary *)

Module CacheKeys.

Import TranslationV2.

(** The key under which [translate_text] files a request. *)
Definition cache_key (text target_lang source_lang : pystr) : pystr :=
  lower (strip text) ++ pair_suffix source_lang target_lang.

(** A language code without an underscore. *)
Definition plain_code (code : pystr) : Prop := 95%N ∉ code.

(** [pattern] occurs in [s]. *)
Definition occurs_in (pattern s : pystr) : Prop :=
  exists before after, s = before ++ pattern ++ after.

End CacheKeys.

(** ** Bridge lifecycle ([assemblyai.py], [websocket.py]) *)

Module Lifecycle.

Import AssemblyAI.

(** What the lifecycle code does to the two sockets. *)
Inductive lifecycle_event :=
| ProviderConnect (session_id : string)
| SpawnListener (session_id : string) (ws : provider_ws)
| SendTermination (ws : provider_ws)
| CloseProvider (ws : provider_ws)
| SendSetupError (ws : client_ws) (e : pystr)
| SendConnected (ws : client_ws) (session_id : string).

Definition set_assembly_sessions (handles : gmap string provider_ws) (st : state)
    : state :=
  mk handles (active_connections st) (translated_texts st)
     (last_translation_times st) (_translation_cache st).

Definition set_active_connections (conns : gmap string client_ws) (st : state)
    : state :=
  mk (assembly_sessions st) conns (translated_texts st)
     (last_translation_times st) (_translation_cache st).

(** Where the [try] block of [cleanup_assemblyai_session] raises, if it
    does. *)
Inductive cleanup_fault :=
| NoFault
| SendRaises
| CloseRaises.

(** [cleanup_assemblyai_session].  The handle is deleted only when both
    the termination notice and the close went through; the two dedup
    tables are cleared in any case. *)
Definition cleanup_assemblyai_session (fault : cleanup_fault) (session_id : string)
    (st : state) : state * list lifecycle_event :=
  let '(st1, evs) :=
    match assembly_sessions st !! session_id with
    | Some websocket =>
      match fault with
      | SendRaises => (st, [SendTermination websocket])
      | CloseRaises => (st, [SendTermination websocket; CloseProvider websocket])
      | NoFault =>
        (set_assembly_sessions (delete session_id (assembly_sessions st)) st,
         [SendTermination websocket; CloseProvider websocket])
      end
    | None => (st, [])
    end in
  (mk (assembly_sessions st1) (active_connections st1)
      (delete session_id (translated_texts st1))
      (delete session_id (last_translation_times st1))
      (_translation_cache st1),
   evs).

(** What [websockets.connect] answers. *)
Inductive dial_result :=
| Dialed (ws : provider_ws)
| DialError (e : pystr).

(** [setup_assemblyai_session]: the handle is stored and the listener
    started; the third component is the text of the exception raised, if
    any. *)
Definition setup_assemblyai_session (api_key : string) (dial : dial_result)
    (session_id : string) (st : state)
    : state * list lifecycle_event * option pystr :=
  if bool_decide (api_key = ""%string)
  then (st, [], Some (py "ASSEMBLYAI_API_KEY not configured"))
  else
    match dial with
    | Dialed websocket =>
      (set_assembly_sessions (<[session_id := websocket]> (assembly_sessions st)) st,
       [ProviderConnect session_id; SpawnListener session_id websocket], None)
    | DialError e => (st, [ProviderConnect session_id], Some e)
    end.

(** The [finally] block of [websocket_endpoint]. *)
Definition endpoint_teardown (fault : cleanup_fault) (session_id : string)
    (st : state) : state * list lifecycle_event :=
  let st1 := set_active_connections (delete session_id (active_connections st)) st in
  match assembly_sessions st1 !! session_id with
  | Some _ => cleanup_assemblyai_session fault session_id st1
  | None => (st1, [])
  end.

(** [websocket_endpoint] up to its receive loop: defaulting of the
    session key, storing the socket, setting the provider session up
    when the key has none, and the welcome message.  The events are the
    sends attempted: [welcome_raises] tells whether the [send_json] of
    the welcome message raises.  The boolean tells whether the receive
    loop is entered; when the setup fails the client is sent the error,
    and then, as when the welcome message cannot be sent, the [finally]
    block runs at once. *)
Definition endpoint_open (api_key : string) (dial : dial_result)
    (welcome_raises : bool) (fault : cleanup_fault) (session_id : string)
    (ws : client_ws) (st : state) : state * list lifecycle_event * bool :=
  let session_id := if bool_decide (session_id = ""%string)
                    then "test_session"%string else session_id in
  let st1 := store_connection session_id ws st in
  let welcome (st2 : state) (evs : list lifecycle_event) :=
    if welcome_raises
    then let '(st3, evs') := endpoint_teardown fault session_id st2 in
         (st3, evs ++ SendConnected ws session_id :: evs', false)
    else (st2, evs ++ [SendConnected ws session_id], true) in
  match assembly_sessions st1 !! session_id with
  | Some _ => welcome st1 []
  | None =>
    match setup_assemblyai_session api_key dial session_id st1 with
    | (st2, evs, None) => welcome st2 evs
    | (st2, evs, Some e) =>
      let '(st3, evs') := endpoint_teardown fault session_id st2 in
      (st3, evs ++ SendSetupError ws e :: evs', false)
    end
  end.

(** Every dedup set holds at most 100 normalized texts. *)
Definition dedup_bounded (st : state) : Prop :=
  forall sid seen, translated_texts st !! sid = Some seen -> size seen <= 100.

(** The event types [handle_assemblyai_message] has a branch for. *)
Definition known_type (data : event_data) : bool :=
  is_str (data !! "type"%string) "Begin"
  || is_str (data !! "type"%string) "Turn"
  || is_str (data !! "type"%string) "Termination".

(** What the bridge holds for one session. *)
Definition bridge_view (sid : string) (st : state) :=
  (assembly_sessions st !! sid, active_connections st !! sid,
   translated_texts st !! sid, last_translation_times st !! sid).

(** The client sends among the events of a bridge call. *)
Definition client_sends (evs : list event) : list (client_ws * message) :=
  flat_map (fun e => match e with SendJson ws m => [(ws, m)] | _ => [] end) evs.

(** The translations spawned among the events of a bridge call. *)
Definition spawned (evs : list event) : list (string * pystr * pystr * message) :=
  flat_map (fun e => match e with
                     | SpawnTranslate sid text target m => [(sid, text, target, m)]
                     | _ => []
                     end) evs.

End Lifecycle.

(** ** Refiner vocabulary *)

Module RefinerEvents.

Import AIProviders.

Definition is_retry (e : event) : bool :=
  match e with CreateTask_refine_after_delay _ _ _ => true | _ => false end.

Definition is_broadcast (e : event) : bool :=
  match e with Broadcast_paragraph_refined _ _ _ _ => true | _ => false end.

Definition is_request (e : event) : bool :=
  match e with GeminiCall _ | HttpPost _ _ | LemurPost _ => true | _ => false end.

End RefinerEvents.

(** ** Sentence splitting ([app/utils/time.py]) *)

Module TimeUtils.

Definition is_sentence_end (c : N) : bool :=
  (c =? 46)%N || (c =? 33)%N || (c =? 63)%N.

(** [re.split(r'[.!?]+', text)]: the pieces between maximal runs of
    sentence ends.  [cur] is the piece being read, reversed; [in_run]
    tells whether the previous character was a sentence end. *)
Fixpoint re_split_aux (cur : pystr) (in_run : bool) (s : pystr) : list pystr :=
  match s with
  | [] => [rev cur]
  | c :: r =>
    if is_sentence_end c
    then if in_run then re_split_aux [] true r
         else rev cur :: re_split_aux [] true r
    else re_split_aux (c :: cur) false r
  end.

Definition re_split (s : pystr) : list pystr := re_split_aux [] false s.

Definition split_into_sentences (text : pystr) : list pystr :=
  match strip text with
  | [] => []
  | _ =>
    let sentences := re_split text in
    map strip (List.filter (fun s => match strip s with [] => false | _ => true end)
                           sentences)
  end.

End TimeUtils.

(** ** The language cache of the legacy service ([translation.py]) *)

Module TranslationV1.

Import TranslationV2.

(** [self._language_cache]: a [dict] in insertion order. *)
Definition language_cache := list (pystr * pystr).

Definition _get_cached_language (text_sample : pystr) (c : language_cache) : pystr :=
  default (py "auto") (cache_get text_sample c).

(** [_cache_language]: past 100 entries the 20 oldest keys go first. *)
Definition _cache_language (text_sample language : pystr) (c : language_cache)
    : language_cache :=
  let c1 := if (100 <? length c)%nat then drop 20 c else c in
  cache_set text_sample language c1.

End TranslationV1.

(** * Properties *)

(** ** Strings *)

Section PyStrFacts.

Lemma startswith_prefix (s p : pystr) :
  startswith s p = true <-> p `prefix_of` s.
Proof.
  revert s; induction p as [|a p IH]; intros [|b s]; simpl.
  - split; [intros _; apply prefix_nil | done].
  - split; [intros _; apply prefix_nil | done].
  - split; [done | intros H; by apply prefix_nil_inv in H].
  - rewrite andb_true_iff, N.eqb_eq, IH. split.
    + intros [-> H]. by apply prefix_cons.
    + intros H. split;
        [by apply prefix_cons_inv_1 in H | by apply prefix_cons_inv_2 in H].
Qed.

Lemma endswith_suffix (s p : pystr) :
  endswith s p = true <-> p `suffix_of` s.
Proof.
  unfold endswith. rewrite startswith_prefix, suffix_prefix_reverse.
  unfold reverse. by rewrite <- !rev_alt.
Qed.

Lemma existsb_endswith (t : pystr) (ends : list pystr) :
  existsb (endswith t) ends = true <-> exists e, e ∈ ends /\ e `suffix_of` t.
Proof.
  rewrite existsb_exists. split; intros (e & He & H); exists e.
  - split; [by apply list_elem_of_In | by apply endswith_suffix].
  - split; [by apply list_elem_of_In | by apply endswith_suffix].
Qed.

Lemma lstrip_head (s : pystr) :
  match lstrip s with
  | [] => True
  | c :: _ => isspace c = false
  end.
Proof.
  induction s as [|c s IH]; simpl; [done|].
  destruct (isspace c) eqn:E; [done|]. exact E.
Qed.

Lemma lstrip_length (s : pystr) : length (lstrip s) <= length s.
Proof.
  induction s as [|c s IH]; simpl; [lia|].
  destruct (isspace c); simpl; lia.
Qed.

Lemma strip_length (s : pystr) : length (strip s) <= length s.
Proof.
  unfold strip, rstrip. rewrite length_rev.
  etrans; [apply lstrip_length|]. rewrite length_rev. apply lstrip_length.
Qed.

(** A trimmed text that is not empty holds a character that is not
    white space. *)
Lemma strip_nonempty_has_nonspace (s : pystr) :
  strip s <> [] -> exists c, c ∈ strip s /\ isspace c = false.
Proof.
  unfold strip, rstrip. intros Hne.
  pose proof (lstrip_head (rev (lstrip s))) as Hh.
  destruct (lstrip (rev (lstrip s))) as [|c r]; [done|].
  exists c. split; [|done].
  apply list_elem_of_In, in_rev. rewrite rev_involutive. by left.
Qed.

Lemma split_aux_nonempty (s cur : pystr) :
  cur <> [] \/ (exists c, c ∈ s /\ isspace c = false) -> split_aux cur s <> [].
Proof.
  revert cur. induction s as [|c s IH]; intros cur H; simpl.
  - destruct H as [H|(c & Hc & _)]; [by destruct cur|by apply elem_of_nil in Hc].
  - destruct (isspace c) eqn:E.
    + destruct cur as [|d cur]; [|done].
      apply IH. right. destruct H as [H|(c' & Hc & Hs)]; [done|].
      apply elem_of_cons in Hc as [->|Hc]; [congruence|by exists c'].
    + apply IH. by left.
Qed.

Lemma split_nonempty (s : pystr) :
  (exists c, c ∈ s /\ isspace c = false) -> split s <> [].
Proof. intros H. apply split_aux_nonempty. by right. Qed.

Lemma lower_char_space (c : N) : isspace (lower_char c) = true -> isspace c = true.
Proof.
  unfold lower_char.
  destruct ((65 <=? c) && (c <=? 90))%N eqn:E1.
  { apply andb_true_iff in E1 as [H1 H2].
    apply N.leb_le in H1. apply N.leb_le in H2. intros H. exfalso.
    unfold isspace in H.
    repeat (apply orb_true_iff in H as [H|H]);
      repeat (apply andb_true_iff in H as [H ?]);
      rewrite ?N.leb_le, ?N.eqb_eq in *; lia. }
  destruct ((192 <=? c) && (c <=? 222) && negb (c =? 215))%N eqn:E2; [|done].
  apply andb_true_iff in E2 as [E2 _]. apply andb_true_iff in E2 as [H1 H2].
  apply N.leb_le in H1. apply N.leb_le in H2. intros H. exfalso.
  unfold isspace in H.
  repeat (apply orb_true_iff in H as [H|H]);
    repeat (apply andb_true_iff in H as [H ?]);
    rewrite ?N.leb_le, ?N.eqb_eq in *; lia.
Qed.

(** Lowercasing a non-blank trimmed text leaves it with a word. *)
Lemma split_lower_strip_nonempty (s : pystr) :
  strip s <> [] -> split (lower (strip s)) <> [].
Proof.
  intros Hne. destruct (strip_nonempty_has_nonspace s Hne) as (c & Hc & Hs).
  apply split_nonempty. exists (lower_char c). split.
  - unfold lower. apply list_elem_of_fmap. by exists c.
  - destruct (isspace (lower_char c)) eqn:E; [|done].
    apply lower_char_space in E. congruence.
Qed.

End PyStrFacts.

(** ** The completeness heuristic *)

Module CompletenessFacts.

Import AssemblyAI.

(** C8.  [_is_text_complete_enough] rejects a text that is empty or has
    fewer than 5 characters once trimmed; otherwise it accepts exactly
    when the text ends with terminal punctuation, or (lowercased) with
    one of the fixed closing words, or has at least 3 words and 15
    characters.  "Hello" and "um wait" are rejected, "This is a complete
    sentence." and "y el espíritu santo" are accepted. *)
Theorem is_text_complete_enough_spec :
  (forall text : pystr,
      _is_text_complete_enough text = true <-> complete_enough (strip text))
  /\ (forall text : pystr,
      strip text = text ->
      (_is_text_complete_enough text = true <-> complete_enough text))
  /\ (forall text : pystr,
      (length text < 5)%nat -> _is_text_complete_enough text = false)
  /\ _is_text_complete_enough (py "") = false
  /\ _is_text_complete_enough (py "Hello") = false
  /\ _is_text_complete_enough (py "um wait") = false
  /\ _is_text_complete_enough (py "This is a complete sentence.") = true
  /\ _is_text_complete_enough (py "y el espíritu santo") = true.
Proof.
  assert (Hmain : forall text : pystr,
             _is_text_complete_enough text = true <-> complete_enough (strip text)).
  { intros text. unfold _is_text_complete_enough, complete_enough, ends_with_one_of.
    rewrite <- !existsb_endswith.
    destruct text as [|c text'] eqn:Etext.
    { vm_compute. split; [done | intros [H _]; lia]. }
    rewrite <- Etext. clear Etext.
    destruct (strip text) as [|d t] eqn:Et.
    { simpl. split; [done | intros [H _]; lia]. }
    rewrite <- Et. clear Et.
    destruct (Nat.ltb_spec (length (strip text)) 5) as [Hlt|Hge].
    { split; [done | intros [H _]; lia]. }
    destruct (existsb (endswith (strip text)) terminal_punctuation).
    { split; [intros _; split; [lia | by left] | done]. }
    destruct (existsb (endswith (lower (strip text))) religious_endings).
    { split; [intros _; split; [lia | by right; left] | done]. }
    destruct (Nat.leb_spec 3 (length (split (strip text)))) as [Hw|Hw];
      destruct (Nat.leb_spec 15 (length (strip text))) as [Hl|Hl]; simpl;
      split; try done;
      try (intros _; split; [lia | right; right; lia]);
      intros [_ [H|[H|H]]]; first [done | lia]. }
  split; [exact Hmain|]. split.
  { intros text Htrim. rewrite <- Htrim at 2. apply Hmain. }
  split.
  { intros text Hlt. destruct (_is_text_complete_enough text) eqn:E; [|done].
    apply Hmain in E. destruct E as [E _].
    pose proof (strip_length text). lia. }
  repeat split; vm_compute; reflexivity.
Qed.

Lemma is_text_complete_enough_spec_witness :
  (length (py "Amen") < 5)%nat /\ _is_text_complete_enough (py "Amen") = false.
Proof.
  split; [vm_compute; lia|].
  destruct is_text_complete_enough_spec as (_ & _ & Hshort & _).
  apply Hshort. vm_compute. lia.
Defined.

End CompletenessFacts.

(** ** The session registry *)

Module SessionManagerFacts.

Import SessionManager.

(** *** Buffers *)

Lemma buffer_append_lookup (sid : string) (text : pystr)
    (buffers : gmap string pystr) :
  buffer_append sid text buffers !! sid =
  Some (match default [] (buffers !! sid) with
        | [] => text
        | b => b ++ py " " ++ text
        end).
Proof.
  unfold buffer_append.
  destruct (buffers !! sid) as [[|c b]|] eqn:E; simpl.
  - rewrite E. by rewrite lookup_alter_eq, E.
  - rewrite E. rewrite !lookup_alter_eq, E. simpl. by rewrite <- app_assoc.
  - rewrite lookup_insert_eq. by rewrite lookup_alter_eq, lookup_insert_eq.
Qed.

(** Appending joins with one space exactly when the buffer has content. *)
Lemma add_to_text_buffer_get (sid : string) (text : pystr) (st : t) :
  get_text_buffer sid (add_to_text_buffer sid text st) =
  match get_text_buffer sid st with
  | [] => text
  | b => b ++ py " " ++ text
  end.
Proof.
  unfold get_text_buffer, add_to_text_buffer. simpl.
  by rewrite buffer_append_lookup.
Qed.

Lemma clear_text_buffer_result (sid : string) (st : t) :
  (clear_text_buffer sid st).1 = get_text_buffer sid st.
Proof. reflexivity. Qed.

Lemma clear_text_buffer_get (sid : string) (st : t) :
  get_text_buffer sid (clear_text_buffer sid st).2 = [].
Proof.
  unfold get_text_buffer, clear_text_buffer. simpl. by rewrite lookup_insert_eq.
Qed.

(** C9.  Starting from an empty text buffer (missing or [""]), appending
    "a" then "b" and draining returns exactly "a b", and a second drain
    right after returns the empty string; in general an append puts a
    single space before the new text exactly when the buffer already
    has content. *)
Theorem text_buffer_append_then_drain (sid : string) (st : t) :
  get_text_buffer sid st = [] ->
  let st2 := add_to_text_buffer sid (py "b") (add_to_text_buffer sid (py "a") st) in
  (clear_text_buffer sid st2).1 = py "a b"
  /\ (clear_text_buffer sid (clear_text_buffer sid st2).2).1 = py ""
  /\ (forall (text : pystr) (st' : t),
         get_text_buffer sid (add_to_text_buffer sid text st') =
         match get_text_buffer sid st' with
         | [] => text
         | b => b ++ py " " ++ text
         end).
Proof.
  intros Hempty st2. subst st2. split; [|split].
  - rewrite clear_text_buffer_result, !add_to_text_buffer_get, Hempty. reflexivity.
  - rewrite clear_text_buffer_result. apply clear_text_buffer_get.
  - intros text st'. apply add_to_text_buffer_get.
Qed.

Lemma text_buffer_append_then_drain_witness :
  get_text_buffer "s1" init = []
  /\ (clear_text_buffer "s1"
        (add_to_text_buffer "s1" (py "b")
           (add_to_text_buffer "s1" (py "a") init))).1 = py "a b".
Proof.
  split; [reflexivity|].
  apply (text_buffer_append_then_drain "s1" init). reflexivity.
Defined.


(** *** Session cleanup *)

Lemma drop_timer_fst (sid : string) (timers : gmap string task) (log : list task) :
  (drop_timer sid timers log).1 = delete sid timers.
Proof.
  unfold drop_timer. destruct (timers !! sid) eqn:E; simpl; [done|].
  symmetry. by apply delete_id.
Qed.

Ltac unfold_ops :=
  unfold run, add_connection, remove_connection, broadcast_to_session,
    update_session_metadata, set_target_language, update_session_metadata,
    add_to_text_buffer, clear_text_buffer, set_buffer_timer, cancel_buffer_timer,
    add_to_translation_buffer, clear_translation_buffer, set_translation_timer,
    cancel_translation_timer, drop_timer, replace_timer, buffer_append in *.

Ltac other_key :=
  repeat first [ rewrite lookup_insert_ne by done
               | rewrite lookup_delete_ne by done
               | rewrite lookup_alter_ne by done ].

(** Removing the last connection of a session deletes its entry from
    every table. *)
Lemma remove_last_connection (sid : string) (ws : websocket) (st : t)
    (conns : gset websocket) :
  consistent st ->
  active_sessions st !! sid = Some conns ->
  conns ∖ {[ws]} = ∅ ->
  no_session_state sid (remove_connection sid ws st).1
  /\ (remove_connection sid ws st).2 = Returned.
Proof.
  intros Hc Ha Hlast.
  destruct (Hc sid) as [md Hmd]; [by eexists|].
  unfold remove_connection. rewrite Ha, Hlast.
  destruct (decide (size (∅ : gset websocket) = 0%nat)) as [_|Hn];
    [|by rewrite size_empty in Hn].
  simpl. rewrite Hmd.
  destruct (drop_timer sid (session_buffer_timers st) (cancelled st))
    as [bt log1] eqn:E1.
  simpl.
  destruct (drop_timer sid (translation_timers st) log1) as [trt log2] eqn:E2.
  simpl. split; [|done].
  pose proof (drop_timer_fst sid (session_buffer_timers st) (cancelled st)) as F1.
  pose proof (drop_timer_fst sid (translation_timers st) log1) as F2.
  rewrite E1 in F1. rewrite E2 in F2. simpl in F1, F2. subst bt trt.
  unfold no_session_state. simpl. by rewrite !lookup_delete_eq.
Qed.

(** Outside joins and unguarded writers, no method creates an entry. *)
Lemma run_preserves_absence (sid : string) (o : op) (st : t) :
  no_session_state sid st ->
  is_join sid o = false ->
  writes_unguarded sid o = false ->
  no_session_state sid (run o st).
Proof.
  intros (H1 & H2 & H3 & H4 & H5 & H6) Hj Hw.
  destruct o as [k ? ?|k ?|? k ?|k ?|k ?|k ?|k|k ?|k|k ?|k|k ?|k];
    simpl in Hj, Hw; try case_bool_decide; try done;
    destruct (decide (k = sid)) as [->|Hne]; try done;
    unfold_ops; unfold no_session_state;
    rewrite ?H1, ?H2, ?H3, ?H4, ?H5, ?H6; simpl; try done;
    repeat case_match; simplify_eq/=; other_key; done.
Qed.

Lemma run_all_preserves_absence (sid : string) (ops : list op) (st : t) :
  no_session_state sid st ->
  Forall (fun o => is_join sid o = false /\ writes_unguarded sid o = false) ops ->
  no_session_state sid (run_all ops st).
Proof.
  intros Habs Hops. revert st Habs.
  induction Hops as [|o ops [Hj Hw] _ IH]; intros st Habs; [done|].
  simpl. apply IH. by apply run_preserves_absence.
Qed.


Lemma init_consistent : consistent init.
Proof. intros sid [x Hx]. simpl in Hx. by rewrite lookup_empty in Hx. Qed.

Lemma run_consistent (o : op) (st : t) : consistent st -> consistent (run o st).
Proof.
  intros Hc s. specialize (Hc s).
  destruct o as [k ? ?|k ?|? k ?|k ?|k ?|k ?|k|k ?|k|k ?|k|k ?|k];
    unfold_ops; repeat case_match; simplify_eq/=; try done;
    destruct (decide (k = s)) as [->|Hne];
    rewrite ?lookup_alter_eq, ?lookup_insert_eq, ?lookup_delete_eq; other_key;
    rewrite ?fmap_is_Some; try done; eauto.
Qed.

Lemma run_all_consistent (ops : list op) (st : t) :
  consistent st -> consistent (run_all ops st).
Proof.
  revert st. induction ops as [|o ops IH]; intros st Hc; [done|].
  simpl. apply IH. by apply run_consistent.
Qed.

(** C3, as the code has it.  In any state the registry can reach, when
    [remove_connection] takes the last connection of a session away,
    every table loses its entry for the key, and the key stays absent
    through any later calls that are neither a join nor one of the
    unguarded writers of that session (buffer append or drain, timer
    setter), whatever they do to other sessions. *)
Theorem cleanup_lasts_until_join_or_unguarded_write (history : list op)
    (sid : string) (ws : websocket) (conns : gset websocket) (ops : list op) :
  let st := run_all history init in
  active_sessions st !! sid = Some conns ->
  conns ∖ {[ws]} = ∅ ->
  Forall (fun o => is_join sid o = false /\ writes_unguarded sid o = false) ops ->
  (remove_connection sid ws st).2 = Returned
  /\ no_session_state sid (remove_connection sid ws st).1
  /\ no_session_state sid (run_all ops (remove_connection sid ws st).1).
Proof.
  intros st Ha Hlast Hops.
  assert (Hc : consistent st) by apply run_all_consistent, init_consistent.
  destruct (remove_last_connection sid ws st conns Hc Ha Hlast) as [Hgone Hret].
  split; [exact Hret|]. split; [exact Hgone|].
  by apply run_all_preserves_absence.
Qed.

Lemma cleanup_lasts_until_join_or_unguarded_write_witness :
  let history := [AddConnection "s" 7 (py "2025-01-01T00:00:00");
                  AddToTextBuffer "s" (py "and it came to pass");
                  SetBufferTimer "s" 3] in
  let ops := [SetTargetLanguage "s" (py "fr"); CancelBufferTimer "s";
              AddToTextBuffer "other" (py "hi"); RemoveConnection "s" 7] in
  no_session_state "s"
    (run_all ops (remove_connection "s" 7 (run_all history init)).1).
Proof.
  intros history ops.
  apply (cleanup_lasts_until_join_or_unguarded_write history "s" 7 {[7]} ops).
  - reflexivity.
  - by vm_compute.
  - repeat constructor.
Defined.

(** C3 as stated fails: after the last connection of "s" has left and
    before any join, draining the text buffer puts an entry for "s"
    back into the buffer table. *)
Lemma drain_recreates_cleaned_session :
  let st := add_connection "s" 7 (py "2025-01-01T00:00:00") init in
  let cleaned := (remove_connection "s" 7 st).1 in
  consistent st
  /\ active_sessions st !! "s"%string = Some {[7]}
  /\ no_session_state "s" cleaned
  /\ is_join "s" (ClearTextBuffer "s") = false
  /\ session_text_buffers (run_all [ClearTextBuffer "s"] cleaned) !! "s"%string
     = Some []
  /\ ~ no_session_state "s" (run_all [ClearTextBuffer "s"] cleaned).
Proof.
  intros st cleaned.
  assert (Hc : consistent st).
  { apply (run_consistent (AddConnection "s" 7 (py "2025-01-01T00:00:00")) init).
    apply init_consistent. }
  assert (Hrecreated :
            session_text_buffers (run_all [ClearTextBuffer "s"] cleaned) !! "s"%string
            = Some []) by reflexivity.
  repeat split; try done.
  intros (_ & _ & H & _). by rewrite Hrecreated in H.
Qed.

(** *** Target language *)

(** C10.  For a session key without metadata in the registry,
    [set_target_language] leaves the whole registry as it was (no
    metadata is created), and [get_target_language] afterwards answers
    the configured default. *)
Theorem set_target_language_unknown_session (cfg : Config) (sid : string)
    (language : pystr) (st : t) :
  session_metadata st !! sid = None ->
  set_target_language sid language st = st
  /\ get_target_language cfg sid (set_target_language sid language st)
     = MStr (TRANSLATION_DEFAULT_TARGET cfg).
Proof.
  intros Habs.
  assert (Hsame : set_target_language sid language st = st).
  { unfold set_target_language, update_session_metadata. by rewrite Habs. }
  split; [exact Hsame|].
  rewrite Hsame. unfold get_target_language, get_session_metadata.
  rewrite Habs. simpl. by rewrite lookup_empty.
Qed.

Lemma set_target_language_unknown_session_witness :
  session_metadata init !! "ghost"%string = None
  /\ set_target_language "ghost" (py "fr") init = init.
Proof.
  split; [reflexivity|].
  apply (set_target_language_unknown_session
           (Build_Config true (py "es") "" "gemini" "" 5 10) "ghost" (py "fr") init).
  reflexivity.
Defined.

End SessionManagerFacts.

(** ** The translation cache *)

Module TranslationV2Facts.

Import TranslationV2.

Lemma words_nonempty (s : pystr) : split s <> [] -> words s <> ∅.
Proof.
  unfold words. destruct (split s) as [|w ws]; [done|]. intros _.
  rewrite list_to_set_cons. set_solver.
Qed.

Lemma pos_of_nat_Z (n : nat) : n <> 0%nat -> Z.pos (Pos.of_nat n) = Z.of_nat n.
Proof. intros Hn. rewrite <- positive_nat_Z. by rewrite Nat2Pos.id. Qed.

(** The code's similarity test against the Jaccard index of the
    specification. *)
Lemma texts_are_similar_jaccard (a b : pystr) :
  words a <> ∅ ->
  _texts_are_similar a b (9 # 10) = true <-> (9 # 10 <= jaccard a b)%Q.
Proof.
  intros Ha. unfold _texts_are_similar, jaccard, eqb.
  case_bool_decide as Hab.
  { subst b. split; [intros _|done].
    rewrite union_idemp_L, intersection_idemp_L.
    assert (Hn : size (words a) <> 0%nat) by (by intros H%size_empty_inv%leibniz_equiv).
    apply Nat.eqb_neq in Hn as Hn'. rewrite Hn'.
    unfold Qle. simpl. rewrite pos_of_nat_Z by done. lia. }
  case_bool_decide as Ha'; [done|]. simpl.
  case_bool_decide as Hb; simpl.
  { split; [done|]. rewrite Hb, intersection_empty_r_L, size_empty.
    destruct (size (words a ∪ ∅) =? 0)%nat; unfold Qle; simpl; lia. }
  destruct (size (words a ∪ words b) =? 0)%nat eqn:Eu.
  { split; [done|]. unfold Qle; simpl; lia. }
  apply Qle_bool_iff.
Qed.

Lemma cache_get_elem (k v : pystr) (c : cache) :
  cache_get k c = Some v -> (k, v) ∈ c.
Proof.
  induction c as [|[k' v'] c IH]; simpl; [done|].
  unfold eqb. case_bool_decide as E.
  - intros [= ->]. subst. apply elem_of_cons. by left.
  - intros H. apply elem_of_cons. right. by apply IH.
Qed.

(** What the fuzzy scan answers: the value of the first matching entry. *)
Lemma fuzzy_lookup_first (clean_lower suffix : pystr) (c : cache) :
  words clean_lower <> ∅ ->
  match fuzzy_lookup clean_lower suffix c with
  | Some v =>
    exists c1 k c2, c = c1 ++ (k, v) :: c2
                    /\ fuzzy_match clean_lower suffix k
                    /\ forall k' v', (k', v') ∈ c1 -> ~ fuzzy_match clean_lower suffix k'
  | None => forall k v, (k, v) ∈ c -> ~ fuzzy_match clean_lower suffix k
  end.
Proof.
  intros Hw. induction c as [|[k v] c IH]; simpl.
  { intros k v H. by apply elem_of_nil in H. }
  destruct (endswith k suffix
            && _texts_are_similar clean_lower (take (length k - length suffix) k)
                 (9 # 10)) eqn:E.
  - apply andb_true_iff in E as [E1 E2].
    exists [], k, c. split; [done|]. split.
    + split; [by apply endswith_suffix | by apply texts_are_similar_jaccard].
    + intros k' v' H. by apply elem_of_nil in H.
  - assert (Hk : ~ fuzzy_match clean_lower suffix k).
    { intros [H1 H2]. apply endswith_suffix in H1.
      apply (texts_are_similar_jaccard _ _ Hw) in H2. by rewrite H1, H2 in E. }
    destruct (fuzzy_lookup clean_lower suffix c) as [v0|].
    + destruct IH as (c1 & k0 & c2 & -> & Hm & Hfirst).
      exists ((k, v) :: c1), k0, c2. split; [done|]. split; [done|].
      intros k' v' H. apply elem_of_cons in H as [[= -> ->]|H]; [done|by eapply Hfirst].
    + intros k' v' H. apply elem_of_cons in H as [[= -> ->]|H]; [done|by eapply IH].
Qed.


Lemma jaccard_words (a b : pystr) : (9 # 10 <= jaccard a b)%Q -> words a <> ∅.
Proof.
  unfold jaccard. intros H Ha. rewrite Ha, intersection_empty_l_L, size_empty in H.
  destruct (size (∅ ∪ words b) =? 0)%nat; unfold Qle in H; simpl in H; lia.
Qed.

(** C7, as the code has it.  When some cache key of the language pair
    is similar to the text at 0.9 or more, [translate_text] calls no
    provider, leaves the cache as it is and returns a cached result:
    that of the text's own key when it is cached, and otherwise that of
    the first entry, in insertion order, that matches the pair and is
    similar at 0.9 or more. *)
Theorem similar_text_served_from_cache
    (provider : option TranslationProvider) (sid : string)
    (text target_lang source_lang : pystr) (c : cache) (key cached : pystr) :
  (key, cached) ∈ c ->
  fuzzy_match (lower (strip text)) (pair_suffix source_lang target_lang) key ->
  exists key' cached',
    translate_text provider sid text target_lang source_lang c = (Some cached', c, [])
    /\ (key', cached') ∈ c
    /\ let exact := lower (strip text) ++ pair_suffix source_lang target_lang in
       (key' = exact /\ cache_get exact c = Some cached')
       \/ (cache_get exact c = None
           /\ fuzzy_match (lower (strip text))
                (pair_suffix source_lang target_lang) key'
           /\ exists c1 c2,
               c = c1 ++ (key', cached') :: c2
               /\ forall k v, (k, v) ∈ c1 ->
                    ~ fuzzy_match (lower (strip text))
                        (pair_suffix source_lang target_lang) k).
Proof.
  intros Hin Hm.
  assert (Hw : words (lower (strip text)) <> ∅) by (destruct Hm; by eapply jaccard_words).
  unfold translate_text.
  destruct (strip text) as [|c0 r] eqn:E; [by destruct Hw|].
  destruct (cache_get (lower (c0 :: r) ++ pair_suffix source_lang target_lang) c)
    as [hit|] eqn:Eg.
  { eexists _, hit. split; [reflexivity|]. split; [apply cache_get_elem, Eg|].
    left. split; reflexivity. }
  pose proof (fuzzy_lookup_first (lower (c0 :: r))
                (pair_suffix source_lang target_lang) c Hw) as Hf.
  destruct (fuzzy_lookup (lower (c0 :: r)) (pair_suffix source_lang target_lang) c)
    as [hit|].
  - destruct Hf as (c1 & k & c2 & -> & Hk & Hfirst).
    exists k, hit. split; [reflexivity|]. split.
    + apply elem_of_app. right. apply elem_of_cons. by left.
    + right. split; [reflexivity|]. split; [exact Hk|]. exists c1, c2.
      split; [reflexivity | exact Hfirst].
  - destruct (Hf key cached Hin). exact Hm.
Qed.

Lemma similar_text_served_from_cache_witness :
  exists key' cached',
    translate_text None "s" (py "World  hello") (py "es") (py "auto")
      [(py "hello world_auto_es", py "hola mundo")] =
    (Some cached', [(py "hello world_auto_es", py "hola mundo")], [])
    /\ (key', cached') ∈ [(py "hello world_auto_es", py "hola mundo")].
Proof.
  destruct (similar_text_served_from_cache None "s" (py "World  hello") (py "es")
              (py "auto") [(py "hello world_auto_es", py "hola mundo")]
              (py "hello world_auto_es") (py "hola mundo"))
    as (key' & cached' & H1 & H2 & _).
  - apply elem_of_cons. by left.
  - split; [apply endswith_suffix; vm_compute; reflexivity | vm_compute; discriminate].
  - exists key', cached'. split; assumption.
Defined.

(** C7 as stated fails: two cached keys of the pair are both similar at
    0.9 or more to a third text (10/11); the result returned for that
    text is the one cached under the older key, not the one cached
    under the newer key.  The cache is built by the service itself. *)
Lemma fuzzy_hit_is_first_similar_key :
  let provider := Some {|
    is_available := true;
    provider_translate_stream := fun _ text _ _ =>
      if eqb text (py "a b c d e f g h i j k") then [py "uno"] else [py "dos"] |} in
  let c1 := (translate_text provider "s" (py "a b c d e f g h i j k")
               (py "es") (py "auto") []).1.2 in
  let c2 := (translate_text provider "s" (py "a b c d e f g h i j l")
               (py "es") (py "auto") c1).1.2 in
  let text := py "a b c d e f g h i j" in
  let key := py "a b c d e f g h i j l_auto_es" in
  (key, py "dos") ∈ c2
  /\ fuzzy_match (lower (strip text)) (pair_suffix (py "auto") (py "es")) key
  /\ translate_text provider "s" text (py "es") (py "auto") c2
     = (Some (py "uno"), c2, [])
  /\ (translate_text provider "s" text (py "es") (py "auto") c2).1.1
     <> Some (py "dos").
Proof.
  intros provider c1 c2 text key.
  assert (Hc2 : c2 = [(py "a b c d e f g h i j k_auto_es", py "uno");
                      (key, py "dos")]) by (vm_compute; reflexivity).
  assert (Hres : translate_text provider "s" text (py "es") (py "auto") c2
                 = (Some (py "uno"), c2, [])) by (vm_compute; reflexivity).
  split; [|split; [|split]].
  - rewrite Hc2. apply elem_of_cons. right. apply elem_of_cons. by left.
  - split; [apply endswith_suffix; vm_compute; reflexivity | vm_compute; discriminate].
  - exact Hres.
  - rewrite Hres. vm_compute. discriminate.
Qed.


(** The fuzzy scan compares raw lowercased words: punctuation alone makes
    it miss a text that the bridge's [_calculate_similarity] rates
    identical to the cached one, and the provider is called. *)
Lemma punctuation_defeats_fuzzy_lookup :
  let provider := Some {|
    is_available := true;
    provider_translate_stream := fun _ _ _ _ => [py "hola mundo amigos"] |} in
  let c := [(py "hello world friends_auto_es", py "hola mundo amigos")] in
  AssemblyAI._calculate_similarity (py "Hello, world friends!") (py "hello world friends")
  = 1%Q
  /\ (translate_text provider "s" (py "Hello, world friends!") (py "es") (py "auto") c).2
     = [Build_provider_call "s" (py "Hello, world friends!") (py "es") (py "auto")].
Proof. split; vm_compute; reflexivity. Qed.

End TranslationV2Facts.

(** ** The transcription bridge *)

Module AssemblyAIFacts.

Import AssemblyAI.

(** *** Live transcripts *)

Lemma live_transcripts_sent_app (a b : list event) :
  live_transcripts_sent (a ++ b) = live_transcripts_sent a ++ live_transcripts_sent b.
Proof. unfold live_transcripts_sent. apply flat_map_app. Qed.

(** C1, as the code has it.  For a Turn event whose transcript is not
    empty once trimmed, exactly one live transcript goes to the
    session's connection, and its [is_final] is
    [end_of_turn and (turn_is_formatted or the key turn_is_formatted is
    present)]: for an event that carries the flag, [is_final] is
    [end_of_turn] itself, whatever the flag's value. *)
Theorem live_transcript_is_final (cfg : Config) (now_iso : pystr) (sid : string)
    (data : event_data) (st : state) (ws : client_ws) (s : pystr) (e f : bool) :
  data !! "type"%string = Some (VStr (py "Turn")) ->
  data !! "transcript"%string = Some (VStr s) ->
  strip s <> [] ->
  get data "end_of_turn" (VBool false) = VBool e ->
  get data "turn_is_formatted" (VBool false) = VBool f ->
  active_connections st !! sid = Some ws ->
  exists d,
    live_transcripts_sent (handle_assemblyai_message cfg now_iso sid data st).2
    = [(ws, d)]
    /\ live_text d = strip s
    /\ is_final d
       = VBool (e && (f || bool_decide (is_Some (data !! "turn_is_formatted"%string))))
    /\ (is_Some (data !! "turn_is_formatted"%string) -> is_final d = VBool e).
Proof.
  intros Htype Htr Hs He Hf Hws.
  unfold handle_assemblyai_message. rewrite Htype.
  change (is_str (Some (VStr (py "Turn"))) "Begin") with false.
  change (is_str (Some (VStr (py "Turn"))) "Turn") with true.
  cbv iota.
  assert (Hg : get data "transcript" (VStr []) = VStr s)
    by (unfold get; by rewrite Htr).
  rewrite Hg, He, Hf.
  destruct s as [|c0 s0]; [done|]. cbn [truthy negb]. cbv iota.
  destruct (strip (c0 :: s0)) as [|t0 t] eqn:Et; [done|].
  eexists. split; [|split; [|split]].
  - cbn [snd]. rewrite live_transcripts_sent_app.
    unfold send_to_client. rewrite Hws.
    destruct (_ && _ && _); reflexivity.
  - reflexivity.
  - cbn [is_final]. unfold py_and, py_or. by destruct e, f.
  - intros Hk. cbn [is_final]. unfold py_and, py_or.
    rewrite (bool_decide_eq_true_2 _ Hk). by destruct e, f.
Qed.

Lemma live_transcript_is_final_witness :
  exists d,
    live_transcripts_sent
      (handle_assemblyai_message
         (Build_Config true (py "es") "" "gemini" "" 5 10) (py "2025-01-01T00:00:00")
         "s"
         (<["type"%string := VStr (py "Turn")]>
            (<["transcript"%string := VStr (py " Hello there. ")]>
               (<["end_of_turn"%string := VBool true]>
                  (<["turn_is_formatted"%string := VBool true]> ∅))))
         (store_connection "s" 4 init)).2
    = [(4, d)]
    /\ is_final d = VBool true.
Proof.
  destruct (live_transcript_is_final
              (Build_Config true (py "es") "" "gemini" "" 5 10)
              (py "2025-01-01T00:00:00") "s"
              (<["type"%string := VStr (py "Turn")]>
                 (<["transcript"%string := VStr (py " Hello there. ")]>
                    (<["end_of_turn"%string := VBool true]>
                       (<["turn_is_formatted"%string := VBool true]> ∅))))
              (store_connection "s" 4 init) 4 (py " Hello there. ") true true)
    as (d & H1 & _ & H2 & _);
    [reflexivity | reflexivity | vm_compute; discriminate
    | reflexivity | reflexivity | reflexivity |].
  exists d. split; [exact H1 | exact H2].
Defined.

(** C1 as stated fails: a Turn event with [end_of_turn = true] and
    [turn_is_formatted = false] is broadcast with [is_final = true],
    not with [true AND false]. *)
Lemma unformatted_end_of_turn_is_final :
  let data : event_data :=
    <["type"%string := VStr (py "Turn")]>
      (<["transcript"%string := VStr (py "Hello there.")]>
         (<["end_of_turn"%string := VBool true]>
            (<["turn_is_formatted"%string := VBool false]> ∅))) in
  exists d,
    live_transcripts_sent
      (handle_assemblyai_message
         (Build_Config false (py "es") "" "gemini" "" 5 10)
         (py "2025-01-01T00:00:00") "s" data (store_connection "s" 4 init)).2
    = [(4, d)]
    /\ get data "end_of_turn" (VBool false) = VBool true
    /\ get data "turn_is_formatted" (VBool false) = VBool false
    /\ is_final d = VBool true
    /\ is_final d <> VBool (true && false).
Proof.
  intros data. eexists. split; [vm_compute; reflexivity|].
  repeat split; try reflexivity. simpl. discriminate.
Qed.


(** *** One connection per session *)

Lemma send_to_client_elem (sid : string) (m : message) (st : state) (ev : event) :
  ev ∈ send_to_client sid m st ->
  exists ws, ev = SendJson ws m /\ active_connections st !! sid = Some ws.
Proof.
  unfold send_to_client. destruct (active_connections st !! sid) as [ws|].
  - intros H. apply list_elem_of_singleton in H. by exists ws.
  - intros H. by apply elem_of_nil in H.
Qed.

(** Decomposes a membership hypothesis about the events of a call. *)
Ltac send_membership Hin :=
  repeat first
    [ apply elem_of_nil in Hin; contradiction
    | apply send_to_client_elem in Hin as (? & [= -> _] & ?); assumption
    | apply elem_of_app in Hin as [Hin|Hin]
    | apply list_elem_of_fmap in Hin as (? & [=] & _)
    | apply elem_of_cons in Hin as [Hin|Hin]
    | discriminate Hin ].

Lemma handle_sends (cfg : Config) (now_iso : pystr) (sid : string)
    (data : event_data) (st : state) (ws : client_ws) (m : message) :
  SendJson ws m ∈ (handle_assemblyai_message cfg now_iso sid data st).2 ->
  active_connections st !! sid = Some ws.
Proof.
  unfold handle_assemblyai_message.
  repeat case_match; cbn [snd]; intros Hin; send_membership Hin.
Qed.

Lemma process_audio_chunk_sends (sid : string) (audio : list Byte.byte)
    (send_error : option pystr) (st : state) (ws : client_ws) (m : message) :
  SendJson ws m ∈ (process_audio_chunk sid audio send_error st).2 ->
  active_connections st !! sid = Some ws.
Proof.
  unfold process_audio_chunk.
  repeat case_match; cbn [snd]; intros Hin; send_membership Hin.
Qed.

Section ConnectionFacts.

Variable set_order : gset pystr -> list pystr.
Variable provider : option TranslationV2.TranslationProvider.

Lemma translate_connections (now_iso : pystr) (current_time : Q) (sid : string)
    (text target : pystr) (original : message) (st : state) :
  active_connections
    (translate_and_broadcast_async set_order provider now_iso current_time sid
       text target original st).1
  = active_connections st.
Proof.
  unfold translate_and_broadcast_async.
  repeat case_match; reflexivity.
Qed.

Lemma translate_sends (now_iso : pystr) (current_time : Q) (sid : string)
    (text target : pystr) (original : message) (st : state)
    (ws : client_ws) (m : message) :
  SendJson ws m ∈
    (translate_and_broadcast_async set_order provider now_iso current_time sid
       text target original st).2 ->
  active_connections st !! sid = Some ws.
Proof.
  unfold translate_and_broadcast_async.
  repeat case_match; cbn [snd]; intros Hin; send_membership Hin.
Qed.

Lemma run_call_connections (c : bridge_call) (st : state) :
  active_connections (run_call set_order provider c st).1 = active_connections st.
Proof. destruct c; [reflexivity | apply translate_connections | reflexivity]. Qed.

Lemma run_call_sends (c : bridge_call) (st : state) (ws : client_ws) (m : message) :
  SendJson ws m ∈ (run_call set_order provider c st).2 ->
  active_connections st !! call_session c = Some ws.
Proof.
  destruct c; cbn [run_call call_session snd].
  - apply handle_sends.
  - apply translate_sends.
  - apply process_audio_chunk_sends.
Qed.

Lemma run_calls_sends (cs : list bridge_call) (st : state) (sid : string)
    (ws : client_ws) (m : message) :
  (sid, SendJson ws m) ∈ (run_calls set_order provider cs st).2 ->
  active_connections st !! sid = Some ws.
Proof.
  revert st. induction cs as [|c cs IH]; intros st; simpl.
  { intros H. by apply elem_of_nil in H. }
  pose proof (run_call_connections c st) as Hconn.
  pose proof (run_call_sends c st ws m) as Hsend.
  destruct (run_call set_order provider c st) as [st1 evs].
  specialize (IH st1).
  destruct (run_calls set_order provider cs st1) as [st2 more].
  simpl in *. intros H. apply elem_of_app in H as [H|H].
  - apply list_elem_of_fmap in H as (e & [= Hs He'] & He). subst. by apply Hsend.
  - rewrite <- Hconn. by apply IH.
Qed.

(** C2.  The delivery map keeps one connection per session key: a
    second client storing itself under the key replaces the first,
    and from then on every message the bridge sends for that session
    (live transcript, translation update, error) goes to the second
    connection only. *)
Theorem latest_connection_receives_everything (sid : string)
    (ws1 ws2 : client_ws) (cs : list bridge_call) (st : state) :
  let st2 := store_connection sid ws2 (store_connection sid ws1 st) in
  active_connections st2 !! sid = Some ws2
  /\ forall ws m,
      (sid, SendJson ws m) ∈ (run_calls set_order provider cs st2).2 -> ws = ws2.
Proof.
  intros st2.
  assert (Hlast : active_connections st2 !! sid = Some ws2)
    by apply lookup_insert_eq.
  split; [exact Hlast|].
  intros ws m H. apply run_calls_sends in H. congruence.
Qed.

End ConnectionFacts.

(** *** Audio without a provider handle *)

(** C4, as the code has it.  With no provider handle for the session, a
    chunk of 100 bytes or more is dropped: the call returns normally,
    forwards nothing and sends no message, so no error reaches the
    caller or the client. *)
Theorem audio_without_handle_is_dropped (sid : string) (audio : list Byte.byte)
    (send_error : option pystr) (st : state) :
  assembly_sessions st !! sid = None ->
  100 <= length audio ->
  process_audio_chunk sid audio send_error st = (Returned, [])
  /\ ~ surfaces_error (process_audio_chunk sid audio send_error st).
Proof.
  intros Hnone Hlen.
  assert (Hres : process_audio_chunk sid audio send_error st = (Returned, [])).
  { unfold process_audio_chunk. rewrite Hnone.
    destruct (Nat.ltb_spec (length audio) 100); [lia|reflexivity]. }
  split; [exact Hres|]. rewrite Hres.
  intros [[e He]|(ws & m & H)]; [discriminate | by apply elem_of_nil in H].
Qed.

Lemma audio_without_handle_is_dropped_witness :
  process_audio_chunk "s" (repeat Byte.x00 100) None init = (Returned, []).
Proof.
  apply (audio_without_handle_is_dropped "s" (repeat Byte.x00 100) None init).
  - reflexivity.
  - vm_compute. reflexivity.
Defined.

(** C4 as stated fails: a 100-byte chunk for a session that has no
    provider handle returns normally and sends nothing. *)
Lemma audio_without_handle_no_error :
  assembly_sessions init !! "s"%string = None
  /\ length (repeat Byte.x00 100) = 100
  /\ process_audio_chunk "s" (repeat Byte.x00 100) None init = (Returned, [])
  /\ ~ surfaces_error (process_audio_chunk "s" (repeat Byte.x00 100) None init).
Proof.
  split; [reflexivity|]. split; [reflexivity|]. split; [reflexivity|].
  intros [[e He]|(ws & m & H)]; [discriminate | by apply elem_of_nil in H].
Qed.


(** *** Duplicate and throttled translations *)





Section TranslateFacts.

Variable set_order : gset pystr -> list pystr.
Variable provider : option TranslationV2.TranslationProvider.









End TranslateFacts.


(** *** Concrete runs *)

Lemma latest_connection_receives_everything_witness :
  let data : event_data :=
    <["type"%string := VStr (py "Turn")]>
      (<["transcript"%string := VStr (py "Hello there.")]>
         (<["end_of_turn"%string := VBool true]> ∅)) in
  let cs := [HandleMessage (Build_Config false (py "es") "" "gemini" "" 5 10)
               (py "2025-01-01T00:00:00") "s" data;
             ProcessAudioChunk "s" (repeat Byte.x00 100) (Some (py "closed"))] in
  let st2 := store_connection "s" 2 (store_connection "s" 1 init) in
  active_connections st2 !! "s"%string = Some 2
  /\ forall ws m,
      ("s"%string, SendJson ws m) ∈ (run_calls elements None cs st2).2 -> ws = 2.
Proof.
  intros data cs st2.
  exact (latest_connection_receives_everything elements None "s" 1 2 cs init).
Defined.



(** Past 100 entries nothing is promised: the set is cut back to 50
    entries of an enumeration that the program does not control.  In an
    order that has the newest text among those cut, the same text two
    seconds later passes every test again, and with a provider whose
    answer is not cached the pair makes two provider calls and sends
    two translation updates. *)
Lemma truncation_lets_repeat_through :
  let provider := Some {|
    TranslationV2.is_available := true;
    TranslationV2.provider_translate_stream :=
      fun _ _ _ _ => [py "error: quota exceeded"] |} in
  let original := error (FailedToProcessAudio []) in
  let text := py "Good morning everyone." in
  let newest_first := fun s : gset pystr =>
    List.filter (eqb (_normalize_text text)) (elements s)
    ++ List.filter (fun x => negb (eqb (_normalize_text text) x)) (elements s) in
  let st := mk ∅ {[ "s"%string := 1 ]} {[ "s"%string := full_dedup_set ]} ∅ [] in
  let first := translate_and_broadcast_async newest_first provider
                 (py "2025-01-01T00:00:10") 10 "s" text (py "es") original st in
  let second := translate_and_broadcast_async newest_first provider
                  (py "2025-01-01T00:00:12") 12 "s" text (py "es") original first.1 in
  size full_dedup_set = 100
  /\ length (List.filter is_provider_call (first.2 ++ second.2)) = 2
  /\ length (List.filter is_translation_update (first.2 ++ second.2)) = 2.
Proof. vm_compute. repeat split; reflexivity. Qed.

End AssemblyAIFacts.

(** ** The paragraph refiner *)

Module AIProvidersFacts.

Import AssemblyAI AIProviders.

Section RateLimit.

Variable py_float : pystr -> option Q.
Variable cfg : Config.

(** The HTTP backend on a 429: nothing is broadcast and exactly one
    retry is spawned, delayed by the advertised backoff (by the
    configured default when the header is missing or unreadable). *)
Lemma http_rate_limit_schedules_one_retry (w : world) (now : Q)
    (completed_at : pystr) (sid : string) (pd : paragraph_data) (st : state)
    (resp : http_response) (c0 : N) (text : pystr) :
  PARAGRAPHIZER_PROVIDER cfg = "http"%string ->
  PARAGRAPHIZER_HTTP_URL cfg <> ""%string ->
  st !! sid = None ->
  buffered_text pd = c0 :: text ->
  http_post w = Some resp ->
  status_code resp = 429%Z ->
  refine_and_broadcast_paragraph py_float cfg w now completed_at sid pd st
  = (st, [HttpPost sid (c0 :: text);
          CreateTask_refine_after_delay sid pd
            (backoff_of py_float cfg (retry_after resp))]).
Proof.
  intros Hprov Hurl Hcool Htext Hpost Hstatus.
  unfold refine_and_broadcast_paragraph. rewrite Hcool, Htext, Hprov.
  cbn [bool_decide]. unfold _refine_with_http.
  rewrite (bool_decide_eq_false_2 _ Hurl), Hpost, Hstatus. reflexivity.
Qed.

Lemma backoff_advertised (h : pystr) (q : Q) :
  py_float h = Some q -> backoff_of py_float cfg (Some h) = q.
Proof. intros H. unfold backoff_of. by rewrite H. Qed.

Lemma backoff_default (retry_after : option pystr) :
  match retry_after with
  | Some h => py_float h = None
  | None => True
  end ->
  backoff_of py_float cfg retry_after
  = inject_Z (PARAGRAPHIZER_RETRY_BACKOFF_SECONDS cfg).
Proof. unfold backoff_of. destruct retry_after as [h|]; [by intros ->|done]. Qed.

(** A retry spawned with a non-negative delay does not start before
    that delay has passed. *)
Lemma retry_waits (spawned_at delay : Q) :
  (0 <= delay)%Q -> retry_not_before spawned_at delay = (spawned_at + delay)%Q.
Proof.
  intros H. unfold retry_not_before. apply Qle_bool_iff in H. by rewrite H.
Qed.

(** The LeMUR backend on a 429: the post is made and nothing else
    happens, whatever the [Retry-After] header says. *)
Lemma lemur_rate_limit_events (w : world) (now : Q) (completed_at : pystr)
    (sid : string) (pd : paragraph_data) (st : state) (resp : http_response)
    (c0 : N) (text : pystr) :
  PARAGRAPHIZER_PROVIDER cfg <> "gemini"%string ->
  PARAGRAPHIZER_PROVIDER cfg <> "http"%string ->
  st !! sid = None ->
  buffered_text pd = c0 :: text ->
  lemur_post w = Some resp ->
  status_code resp = 429%Z ->
  refine_and_broadcast_paragraph py_float cfg w now completed_at sid pd st
  = (st, [LemurPost (c0 :: text)]).
Proof.
  intros Hg Hh Hcool Htext Hpost Hstatus.
  unfold refine_and_broadcast_paragraph. rewrite Hcool, Htext.
  rewrite (bool_decide_eq_false_2 _ Hg), (bool_decide_eq_false_2 _ Hh).
  unfold _refine_with_lemur. rewrite Hpost, Hstatus. reflexivity.
Qed.

End RateLimit.

(** C6 at the failing input.  With the fallback (LeMUR) backend
    configured, a 429 answer carrying [Retry-After: 3] makes
    [refine_and_broadcast_paragraph] post once and stop: no retry task
    is created, so no retry ever fires; the same answer on the HTTP
    backend creates one retry task delayed by 3 seconds. *)
Theorem lemur_rate_limit_is_never_retried :
  let py_float := fun h : pystr => if eqb h (py "3") then Some 3%Q else None in
  let limited := {| status_code := 429; retry_after := Some (py "3"); json := None |} in
  let w := {| gemini_text := None; http_post := Some limited;
              lemur_post := Some limited |} in
  let pd := {| buffered_text := py "and it came to pass";
               verses := []; paragraph_number := Some 1%Z |} in
  let lemur := Build_Config false (py "es") "" "lemur" "http://refiner.local" 5 10 in
  let http := Build_Config false (py "es") "" "http" "http://refiner.local" 5 10 in
  refine_and_broadcast_paragraph py_float lemur w 0 (py "2025-01-01T00:00:00")
    "s" pd ∅
  = (∅, [LemurPost (py "and it came to pass")])
  /\ refine_and_broadcast_paragraph py_float http w 0 (py "2025-01-01T00:00:00")
       "s" pd ∅
     = (∅, [HttpPost "s" (py "and it came to pass");
            CreateTask_refine_after_delay "s" pd 3])
  /\ retry_not_before 0 3 = (0 + 3)%Q.
Proof.
  intros py_float limited w pd lemur http.
  split; [|split]; vm_compute; reflexivity.
Qed.

End AIProvidersFacts.

(** * Further properties *)

(** ** The session registry, continued *)

Module RegistryFacts.

Import SessionManager Registry SessionManagerFacts.

Lemma run_all_app (ops1 ops2 : list op) (st : t) :
  run_all (ops1 ++ ops2) st = run_all ops2 (run_all ops1 st).
Proof. unfold run_all. apply fold_left_app. Qed.

(** An invariant of every operation holds in every reachable state. *)
Lemma run_all_invariant (P : t -> Prop) (ops : list op) (st : t) :
  (forall o s, P s -> P (run o s)) -> P st -> P (run_all ops st).
Proof.
  intros Hstep. revert st. induction ops as [|o ops IH]; intros st Hst; [done|].
  simpl. apply IH. by apply Hstep.
Qed.

(** X1.  Joining is idempotent per connection: a socket that joins a
    session it is already in changes nothing, whatever the time of the
    second join. *)
Theorem add_connection_idempotent (sid : string) (ws : websocket)
    (now1 now2 : pystr) (st : t) :
  add_connection sid ws now2 (add_connection sid ws now1 st)
  = add_connection sid ws now1 st.
Proof.
  assert (Hidem : forall m : gmap string (gset websocket),
             alter (fun conns => {[ws]} ∪ conns) sid
               (alter (fun conns => {[ws]} ∪ conns) sid m)
             = alter (fun conns => {[ws]} ∪ conns) sid m).
  { intros m. rewrite alter_alter_eq. apply alter_ext.
    intros x _. simpl. apply set_eq. intros y. rewrite !elem_of_union. tauto. }
  unfold add_connection.
  destruct (active_sessions st !! sid) as [conns|] eqn:E; simpl.
  - rewrite lookup_alter_eq, E. simpl. unfold set_active_sessions. simpl.
    by rewrite Hidem.
  - rewrite lookup_alter_eq, lookup_insert_eq. simpl.
    unfold set_active_sessions. simpl. by rewrite Hidem.
Qed.


(** X2.  Joining a session that already has other connections and
    leaving again with the same socket gives the registry back exactly
    as it was. *)
Theorem join_then_leave_restores (sid : string) (ws : websocket) (now_iso : pystr)
    (conns : gset websocket) (st : t) :
  active_sessions st !! sid = Some conns ->
  ws ∉ conns ->
  conns <> ∅ ->
  remove_connection sid ws (add_connection sid ws now_iso st) = (st, Returned).
Proof.
  intros Ha Hnew Hne.
  unfold add_connection. rewrite Ha. cbn beta iota zeta.
  unfold remove_connection. cbn [active_sessions set_active_sessions].
  rewrite lookup_alter_eq, Ha. cbn [fmap option_fmap option_map].
  assert (Hdiff : ({[ws]} ∪ conns) ∖ {[ws]} = conns).
  { apply set_eq. intros y.
    rewrite elem_of_difference, elem_of_union, elem_of_singleton.
    split; [tauto|]. intros Hy. split; [tauto|]. intros ->. done. }
  rewrite Hdiff.
  destruct (decide (size conns = 0)) as [Hz|_].
  { by apply size_empty_inv, leibniz_equiv in Hz. }
  rewrite insert_alter_eq, (insert_id _ _ _ Ha). by destruct st.
Qed.

Lemma join_then_leave_restores_witness :
  let st := add_connection "s" 1 (py "2025-01-01T00:00:00") init in
  remove_connection "s" 2 (add_connection "s" 2 (py "2025-01-01T00:05:00") st)
  = (st, Returned).
Proof.
  intros st.
  apply (join_then_leave_restores "s" 2 (py "2025-01-01T00:05:00") {[1]} st).
  - reflexivity.
  - by vm_compute.
  - by vm_compute.
Defined.

Lemma run_metadata_has_session (o : op) (st : t) :
  consistent st -> metadata_has_session st -> metadata_has_session (run o st).
Proof.
  intros Hc Hm s. specialize (Hm s). specialize (Hc s).
  destruct o as [k ? ?|k ?|? k ?|k ?|k ?|k ?|k|k ?|k|k ?|k|k ?|k];
    unfold_ops; repeat case_match; simplify_eq/=; try done;
    destruct (decide (k = s)) as [->|Hne];
    rewrite ?lookup_alter_eq, ?lookup_insert_eq, ?lookup_delete_eq; other_key;
    rewrite ?fmap_is_Some; try done; eauto.
  intros [x Hx]. congruence.
Qed.

(** X3.  In every state the registry can reach, a session has metadata
    exactly when it has a connection-set entry, so that
    [remove_connection] never fails on its [del] of the metadata. *)
Theorem registry_tables_agree (history : list op) (sid : string) (ws : websocket) :
  let st := run_all history init in
  (forall s, is_Some (session_metadata st !! s) <-> is_Some (active_sessions st !! s))
  /\ (remove_connection sid ws st).2 = Returned.
Proof.
  intros st.
  assert (Hboth : consistent st /\ metadata_has_session st).
  { apply (run_all_invariant (fun s => consistent s /\ metadata_has_session s)).
    - intros o s [Hc Hm]. split; [by apply run_consistent|].
      by apply run_metadata_has_session.
    - split; [apply init_consistent|]. intros s [x Hx]. simpl in Hx.
      by rewrite lookup_empty in Hx. }
  destruct Hboth as [Hc Hm]. split.
  - intros s. split; [apply Hm | apply Hc].
  - unfold remove_connection.
    destruct (active_sessions st !! sid) as [conns|] eqn:Ea; [|done].
    destruct (decide (size (conns ∖ {[ws]}) = 0)); [|done].
    cbn [session_metadata set_active_sessions].
    destruct (Hc sid) as [md Hmd]; [by eexists|]. rewrite Hmd.
    by repeat case_match.
Qed.

(** X4.  Sessions are isolated: an operation called for one session
    leaves everything the registry holds for any other session as it
    was. *)
Theorem operations_leave_other_sessions (o : op) (sid : string) (st : t) :
  op_session o <> sid ->
  session_view sid (run o st) = session_view sid st.
Proof.
  intros Hne. unfold session_view.
  destruct o as [k ? ?|k ?|? k ?|k ?|k ?|k ?|k|k ?|k|k ?|k|k ?|k];
    simpl in Hne; unfold_ops;
    repeat case_match; simplify_eq/=; other_key; done.
Qed.

Lemma operations_leave_other_sessions_witness :
  let st := add_to_text_buffer "a" (py "kept")
              (add_connection "a" 1 (py "2025-01-01T00:00:00") init) in
  session_view "a" (run (RemoveConnection "b" 1) (run (ClearTextBuffer "b") st))
  = session_view "a" st.
Proof.
  intros st.
  rewrite (operations_leave_other_sessions (RemoveConnection "b" 1) "a");
    [|discriminate].
  apply (operations_leave_other_sessions (ClearTextBuffer "b") "a"). discriminate.
Defined.

(** What a broadcast leaves behind: the members whose send did not
    fail, and everything else as it was. *)
Lemma broadcast_survivors {M : Type} (send_fails : websocket -> bool)
    (sid : string) (m : M) (exclude : option websocket) (conns : gset websocket)
    (st : t) :
  active_sessions st !! sid = Some conns ->
  let r := broadcast_to_session send_fails sid m exclude st in
  (forall w m', (w, m') ∈ r.2 <-> m' = m /\ addressed conns exclude w)
  /\ (exists left, active_sessions r.1 !! sid = Some left
                   /\ forall w, w ∈ left <->
                        w ∈ conns /\ ~ (addressed conns exclude w
                                        /\ send_fails w = true))
  /\ (forall s, s <> sid -> session_view s r.1 = session_view s st)
  /\ session_metadata r.1 = session_metadata st
  /\ session_text_buffers r.1 = session_text_buffers st
  /\ cancelled r.1 = cancelled st
  /\ session_buffer_timers r.1 = session_buffer_timers st
  /\ translation_buffers r.1 = translation_buffers st
  /\ translation_timers r.1 = translation_timers st.
Proof.
  intros Ea r. subst r. unfold broadcast_to_session. rewrite Ea.
  set (targets := match exclude with
                  | Some x => List.filter (fun w => negb (Nat.eqb w x)) (elements conns)
                  | None => elements conns
                  end).
  assert (Htargets : forall w, w ∈ targets <-> addressed conns exclude w).
  { intros w. unfold targets, addressed. destruct exclude as [x|].
    - rewrite list_elem_of_In, filter_In, <- list_elem_of_In, elem_of_elements.
      rewrite negb_true_iff, Nat.eqb_neq. split; intros [H1 H2]; split; try done.
      + intros [= ->]. done.
      + intros ->. done.
    - rewrite elem_of_elements. split; [by intros H|by intros [H _]]. }
  cbn [fst snd]. split; [|split; [|split]].
  - intros w m'. rewrite list_elem_of_fmap. split.
    + intros (w' & [= -> ->] & Hw). split; [done|by apply Htargets].
    + intros [-> Hw]. exists w. split; [done|by apply Htargets].
  - eexists. cbn [active_sessions set_active_sessions].
    split; [apply lookup_insert_eq|].
    intros w. rewrite elem_of_difference, elem_of_list_to_set.
    rewrite list_elem_of_In, filter_In, <- list_elem_of_In, Htargets. tauto.
  - intros s Hs. unfold session_view. cbn. by rewrite lookup_insert_ne.
  - done.
Qed.

(** X5.  A broadcast writes to every member of the session other than
    the excluded one, once each and to nobody else; afterwards the
    session has lost exactly the members whose send failed, and nothing
    else in the registry has changed: the connection sets of the other
    sessions, and the metadata, text buffers, translation buffers, both
    timer tables and the log of cancelled timers, of this session as of
    every other, are as they were.  For a session the registry does not
    know, nothing is sent and nothing changes. *)
Theorem broadcast_reaches_each_member_once {M : Type}
    (send_fails : websocket -> bool) (sid : string) (m : M)
    (exclude : option websocket) (st : t) :
  let r := broadcast_to_session send_fails sid m exclude st in
  match active_sessions st !! sid with
  | None => r = (st, [])
  | Some conns =>
    NoDup r.2.*1
    /\ (forall w m', (w, m') ∈ r.2 <-> m' = m /\ addressed conns exclude w)
    /\ (exists left, active_sessions r.1 !! sid = Some left
                     /\ forall w, w ∈ left <->
                          w ∈ conns /\ ~ (addressed conns exclude w
                                          /\ send_fails w = true))
    /\ (forall s, s <> sid -> session_view s r.1 = session_view s st)
    /\ session_metadata r.1 = session_metadata st
    /\ session_text_buffers r.1 = session_text_buffers st
    /\ cancelled r.1 = cancelled st
    /\ session_buffer_timers r.1 = session_buffer_timers st
    /\ translation_buffers r.1 = translation_buffers st
    /\ translation_timers r.1 = translation_timers st
  end.
Proof.
  intros r.
  destruct (active_sessions st !! sid) as [conns|] eqn:Ea.
  - split; [|by apply broadcast_survivors].
    subst r. unfold broadcast_to_session. rewrite Ea. cbn [fst snd].
    rewrite <- list_fmap_compose, list_fmap_id.
    destruct exclude;
      [apply NoDup_ListNoDup, List.NoDup_filter, NoDup_ListNoDup|];
      apply NoDup_elements.
  - subst r. unfold broadcast_to_session. by rewrite Ea.
Qed.

(** X6.  A broadcast on which every send fails empties the session
    without cleaning it up: the entry stays, with no connection, and so
    does the metadata; the next [remove_connection] for the session, with
    any socket, then deletes the session's state. *)
Theorem failed_broadcast_leaves_empty_session {M : Type} (history : list op)
    (send_fails : websocket -> bool) (sid : string) (m : M)
    (conns : gset websocket) (ws : websocket) :
  let st := run_all history init in
  active_sessions st !! sid = Some conns ->
  (forall w, w ∈ conns -> send_fails w = true) ->
  let st' := (broadcast_to_session send_fails sid m None st).1 in
  active_sessions st' !! sid = Some ∅
  /\ is_Some (session_metadata st' !! sid)
  /\ no_session_state sid (remove_connection sid ws st').1.
Proof.
  intros st Ha Hfail st'.
  pose proof (broadcast_survivors send_fails sid m None conns st Ha) as H.
  destruct H as (_ & (rest & Hrest & Hmem) & Hview & Hmd & _).
  fold st' in Hrest, Hmd, Hview.
  assert (Hempty : rest = ∅).
  { apply set_eq. intros w. rewrite Hmem. split; [|by intros H%elem_of_empty].
    intros [Hw Hnot]. exfalso. apply Hnot. split; [by split|by apply Hfail]. }
  subst rest.
  assert (Hc : consistent st) by apply run_all_consistent, init_consistent.
  assert (Hc' : consistent st').
  { intros s Hs. rewrite Hmd. apply Hc.
    destruct (decide (s = sid)) as [->|Hne]; [by eexists|].
    specialize (Hview s Hne). unfold session_view in Hview.
    injection Hview as Hact _. by rewrite <- Hact. }
  split; [exact Hrest|]. split.
  - apply Hc'. by eexists.
  - apply (remove_last_connection sid ws st' ∅ Hc' Hrest).
    apply set_eq. intros w. rewrite elem_of_difference.
    split; [by intros [H%elem_of_empty _]|by intros H%elem_of_empty].
Qed.

Lemma failed_broadcast_leaves_empty_session_witness :
  let st := run_all [AddConnection "s" 1 (py "2025-01-01T00:00:00")] init in
  active_sessions (broadcast_to_session (fun _ => true) "s" (py "hi") None st).1
    !! "s"%string = Some ∅.
Proof.
  intros st.
  apply (failed_broadcast_leaves_empty_session
           [AddConnection "s" 1 (py "2025-01-01T00:00:00")] (fun _ => true) "s"
           (py "hi") {[1]} 1).
  - reflexivity.
  - reflexivity.
Defined.

(** X7.  Timers are cancelled whenever they are replaced or dropped:
    setting a timer cancels the one it replaces, cancelling drops and
    cancels the pending one, and the cleanup after the last connection
    cancels the pending buffer timer and then the pending translation
    timer, each once. *)
Theorem timers_cancelled_when_dropped (history : list op) (sid : string)
    (tk : task) (ws : websocket) :
  let st := run_all history init in
  (session_buffer_timers (set_buffer_timer sid tk st) !! sid = Some tk
   /\ cancelled (set_buffer_timer sid tk st)
      = cancelled st ++ option_list (session_buffer_timers st !! sid))
  /\ (session_buffer_timers (cancel_buffer_timer sid st) !! sid = None
      /\ cancelled (cancel_buffer_timer sid st)
         = cancelled st ++ option_list (session_buffer_timers st !! sid))
  /\ (translation_timers (set_translation_timer sid tk st) !! sid = Some tk
      /\ cancelled (set_translation_timer sid tk st)
         = cancelled st ++ option_list (translation_timers st !! sid))
  /\ (forall conns, active_sessions st !! sid = Some conns -> conns ∖ {[ws]} = ∅ ->
       cancelled (remove_connection sid ws st).1
       = cancelled st ++ option_list (session_buffer_timers st !! sid)
                      ++ option_list (translation_timers st !! sid)).
Proof.
  intros st. split; [|split; [|split]].
  - unfold set_buffer_timer, replace_timer. cbn.
    rewrite lookup_insert_eq. split; [done|].
    destruct (session_buffer_timers st !! sid); cbn; [done|by rewrite app_nil_r].
  - unfold cancel_buffer_timer, drop_timer.
    destruct (session_buffer_timers st !! sid) eqn:E; cbn.
    + by rewrite lookup_delete_eq.
    + by rewrite E, app_nil_r.
  - unfold set_translation_timer, replace_timer. cbn.
    rewrite lookup_insert_eq. split; [done|].
    destruct (translation_timers st !! sid); cbn; [done|by rewrite app_nil_r].
  - intros conns Ha Hlast.
    assert (Hc : consistent st) by apply run_all_consistent, init_consistent.
    destruct (Hc sid) as [md Hmd]; [by eexists|].
    unfold remove_connection. rewrite Ha, Hlast.
    destruct (decide (size (∅ : gset websocket) = 0)) as [_|Hn];
      [|by rewrite size_empty in Hn].
    cbn [session_metadata set_active_sessions]. rewrite Hmd.
    unfold drop_timer. cbn.
    destruct (session_buffer_timers st !! sid); cbn;
      destruct (translation_timers st !! sid); cbn;
      rewrite <- ?app_assoc, ?app_nil_r; done.
Qed.

Lemma timers_cancelled_when_dropped_witness :
  let st := run_all [AddConnection "s" 1 (py "2025-01-01T00:00:00");
                     SetBufferTimer "s" 5; SetTranslationTimer "s" 6] init in
  cancelled (remove_connection "s" 1 st).1
  = cancelled st ++ option_list (session_buffer_timers st !! "s"%string)
                 ++ option_list (translation_timers st !! "s"%string).
Proof.
  intros st.
  apply (proj2 (proj2 (proj2 (timers_cancelled_when_dropped
           [AddConnection "s" 1 (py "2025-01-01T00:00:00");
            SetBufferTimer "s" 5; SetTranslationTimer "s" 6] "s" 0 1))) {[1]}).
  - reflexivity.
  - by vm_compute.
Defined.

(** X8.  Buffers join what they are given with single spaces: after
    appending texts to an empty buffer, the first of them non-empty, a
    drain returns the texts joined by one space each; the translation
    buffer does the same with the trimmed texts. *)
Theorem buffers_join_with_single_spaces (sid : string) (texts : list pystr) (st : t) :
  (get_text_buffer sid st = [] ->
   head texts <> Some [] ->
   (clear_text_buffer sid (add_all_to_text_buffer sid texts st)).1
   = join (py " ") texts)
  /\ (get_translation_buffer sid st = [] ->
      head (map strip texts) <> Some [] ->
      (clear_translation_buffer sid (add_all_to_translation_buffer sid texts st)).1
      = join (py " ") (map strip texts)).
Proof.
  assert (Hjoin : forall (t : pystr) (rest : list pystr),
             join (py " ") (t :: rest) = t ++ concat (map (app (py " ")) rest)).
  { intros t rest. revert t. induction rest as [|t' rest IH]; intros t.
    - cbn. by rewrite app_nil_r.
    - change (join (py " ") (t :: t' :: rest))
        with (t ++ py " " ++ join (py " ") (t' :: rest)).
      rewrite IH. cbn. by rewrite <- app_assoc. }
  assert (Hfold : forall (ts : list pystr) (buffers : gmap string pystr) (b : pystr),
             buffers !! sid = Some b -> b <> [] ->
             fold_left (fun m text => buffer_append sid text m) ts buffers !! sid
             = Some (b ++ concat (map (app (py " ")) ts))).
  { intros ts. induction ts as [|t rest IH]; intros buffers b Hb Hne; cbn [fold_left].
    - cbn [map concat]. by rewrite app_nil_r.
    - pose proof (buffer_append_lookup sid t buffers) as Hl.
      rewrite Hb in Hl. cbn [default] in Hl.
      destruct b as [|c b]; [done|].
      rewrite (IH _ _ Hl) by done. cbn [map concat].
      by rewrite <- !app_assoc. }
  assert (Hall : forall (ts : list pystr) (buffers : gmap string pystr),
             default [] (buffers !! sid) = [] ->
             head ts <> Some [] ->
             default [] (fold_left (fun m text => buffer_append sid text m) ts buffers
                           !! sid)
             = join (py " ") ts).
  { intros [|t rest] buffers Hb Hhd; [exact Hb|].
    destruct t as [|c t]; [done|]. cbn [fold_left].
    pose proof (buffer_append_lookup sid (c :: t) buffers) as Hl.
    rewrite Hb in Hl. rewrite (Hfold _ _ _ Hl) by done. cbn [default].
    by rewrite Hjoin. }
  assert (Htext : forall texts st,
             session_text_buffers (add_all_to_text_buffer sid texts st)
             = fold_left (fun m text => buffer_append sid text m) texts
                 (session_text_buffers st)).
  { intros ts. induction ts as [|t rest IH]; intros st0; [done|].
    unfold add_all_to_text_buffer in *. cbn [fold_left]. by rewrite IH. }
  assert (Htrans : forall texts st,
             translation_buffers (add_all_to_translation_buffer sid texts st)
             = fold_left (fun m text => buffer_append sid text m) (map strip texts)
                 (translation_buffers st)).
  { intros ts. induction ts as [|t rest IH]; intros st0; [done|].
    unfold add_all_to_translation_buffer in *. cbn [fold_left map]. by rewrite IH. }
  split.
  - intros Hempty Hhd. unfold clear_text_buffer. cbn [fst].
    rewrite Htext. by apply Hall.
  - intros Hempty Hhd. unfold clear_translation_buffer. cbn [fst].
    rewrite Htrans. by apply Hall.
Qed.

Lemma buffers_join_with_single_spaces_witness :
  (clear_text_buffer "s"
     (add_all_to_text_buffer "s" [py "and it"; py "came"; py ""; py "to pass"] init)).1
  = py "and it came  to pass".
Proof.
  apply (buffers_join_with_single_spaces "s"
           [py "and it"; py "came"; py ""; py "to pass"] init).
  - reflexivity.
  - discriminate.
Defined.

(** X9.  For a session the registry knows, the target language reads
    back as it was set, the last setting winning; the other metadata of
    the session and the target language of every other session are
    untouched. *)
Theorem target_language_reads_back (cfg : Config) (sid : string)
    (language : pystr) (md : gmap string meta_value) (st : t) :
  session_metadata st !! sid = Some md ->
  let st' := set_target_language sid language st in
  get_target_language cfg sid st' = MStr language
  /\ (forall k, k <> "target_language"%string ->
                get_session_metadata sid st' !! k = md !! k)
  /\ (forall other, other <> sid ->
                    get_target_language cfg other st' = get_target_language cfg other st)
  /\ (forall language', get_target_language cfg sid
                          (set_target_language sid language' st') = MStr language').
Proof.
  intros Hmd st'.
  assert (Hlook : forall l (s : t) d, session_metadata s !! sid = Some d ->
             session_metadata (set_target_language sid l s) !! sid
             = Some ({[ "target_language"%string := MStr l ]} ∪ d)).
  { intros l s d Hd. unfold set_target_language, update_session_metadata.
    rewrite Hd. cbn. apply lookup_insert_eq. }
  assert (Hget : forall l (s : t) d, session_metadata s !! sid = Some d ->
             get_target_language cfg sid (set_target_language sid l s) = MStr l).
  { intros l s d Hd. unfold get_target_language, get_session_metadata.
    rewrite (Hlook l s d Hd). simpl.
    by rewrite (lookup_union_Some_l _ _ _ (MStr l)) by apply lookup_singleton_eq. }
  split; [by eapply Hget|]. split; [|split].
  - intros k Hk. unfold get_session_metadata. subst st'.
    rewrite (Hlook _ _ _ Hmd). simpl.
    rewrite lookup_union_r; [done|]. by apply lookup_singleton_ne.
  - intros other Hother. unfold get_target_language, get_session_metadata.
    subst st'. unfold set_target_language, update_session_metadata.
    rewrite Hmd. cbn. by rewrite lookup_insert_ne.
  - intros language'. eapply Hget. subst st'. by apply Hlook.
Qed.

Lemma target_language_reads_back_witness :
  get_target_language (Build_Config true (py "es") "" "gemini" "" 5 10) "s"
    (set_target_language "s" (py "fr")
       (add_connection "s" 1 (py "2025-01-01T00:00:00") init))
  = MStr (py "fr").
Proof.
  eapply (target_language_reads_back _ "s" (py "fr")). reflexivity.
Defined.

End RegistryFacts.

(** ** The translation cache, continued *)

Module CacheFacts.

Import TranslationV2 CacheKeys.

Lemma cache_get_cache_set (k v : pystr) (c : cache) :
  cache_get k (cache_set k v c) = Some v.
Proof.
  induction c as [|[k' v'] c IH]; cbn.
  - unfold eqb. by rewrite bool_decide_eq_true_2.
  - unfold eqb in *. case_bool_decide as E; cbn; unfold eqb.
    + by rewrite bool_decide_eq_true_2.
    + by rewrite bool_decide_eq_false_2.
Qed.

Lemma cache_set_length (k v : pystr) (c : cache) :
  length (cache_set k v c) <= S (length c).
Proof.
  induction c as [|[k' v'] c IH]; cbn; [lia|].
  destruct (eqb k' k); cbn; lia.
Qed.

Lemma evict_length (c : cache) :
  length (evict c) <= length c
  /\ (_cache_max_size <= length c -> S (length (evict c)) <= length c).
Proof.
  unfold evict. destruct (Nat.leb_spec _cache_max_size (length c)) as [Hfull|Hroom].
  - rewrite length_drop. unfold _cache_max_size in *. lia.
  - split; [lia|]. intros H. lia.
Qed.

(** The shape of every result of [translate_text]. *)
Lemma translate_text_cases (provider : option TranslationProvider) (sid : string)
    (text target source : pystr) (c : cache) :
  let r := translate_text provider sid text target source c in
  (r.1.2 = c
   /\ (r.2 = []
       \/ (r.2 = (translate_stream provider sid text target source).2
           /\ cache_get (cache_key text target source) c = None)))
  \/ (exists v, r.1.1 = Some v
                /\ _is_valid_translation v = true
                /\ r.2 = [Build_provider_call sid text target source]
                /\ r.1.2 = cache_set (cache_key text target source) v (evict c)
                /\ cache_get (cache_key text target source) c = None).
Proof.
  intros r. subst r. unfold translate_text, cache_key.
  destruct (strip text) as [|c0 t0] eqn:Es; [left; by split; [|left]|].
  destruct (cache_get (lower (c0 :: t0) ++ pair_suffix source target) c) eqn:Eg;
    [left; by split; [|left]|].
  destruct (fuzzy_lookup (lower (c0 :: t0)) (pair_suffix source target) c);
    [left; by split; [|left]|].
  assert (Hcalls : (translate_stream provider sid text target source).1 <> [] ->
                   (translate_stream provider sid text target source).2
                   = [Build_provider_call sid text target source]).
  { unfold translate_stream. rewrite Es. repeat case_match; cbn; done. }
  destruct (translate_stream provider sid text target source) as [chunks calls].
  cbn [fst snd] in *.
  destruct chunks as [|ch chunks]; [left; by split; [|right]|].
  destruct (join (py " ") (ch :: chunks)) as [|j0 j] eqn:Ej; [left; by split; [|right]|].
  destruct (_is_valid_translation (j0 :: j)) eqn:Ev; [|left; by split; [|right]].
  right. exists (j0 :: j). cbn [fst snd]. rewrite Hcalls by done. done.
Qed.

(** X10.  The translation cache is bounded: [translate_text] never leaves
    it with more than 1000 entries, unless it already held more, and then
    it does not grow. *)
Theorem translation_cache_is_bounded (provider : option TranslationProvider)
    (sid : string) (text target source : pystr) (c : cache) :
  length (translate_text provider sid text target source c).1.2
  <= Nat.max (length c) _cache_max_size.
Proof.
  destruct (translate_text_cases provider sid text target source c)
    as [[-> _]|(v & _ & _ & _ & -> & _)]; [lia|].
  pose proof (cache_set_length (cache_key text target source) v (evict c)).
  pose proof (evict_length c) as [Hle Hfull].
  destruct (Nat.le_gt_cases _cache_max_size (length c)) as [H1|H1].
  - specialize (Hfull H1). lia.
  - lia.
Qed.

(** X11.  A translation worth caching is served from the cache the next
    time: when [translate_text] returns a valid result, the same request
    on the resulting cache returns the same result, calls no provider
    and leaves the cache alone. *)
Theorem valid_translation_is_served_again (provider : option TranslationProvider)
    (sid : string) (text target source : pystr) (c c1 : cache) (v : pystr)
    (calls : list provider_call) :
  translate_text provider sid text target source c = (Some v, c1, calls) ->
  _is_valid_translation v = true ->
  translate_text provider sid text target source c1 = (Some v, c1, []).
Proof.
  intros Hfirst Hvalid.
  pose proof (translate_text_cases provider sid text target source c) as Hcases.
  rewrite Hfirst in Hcases. cbn [fst snd] in Hcases.
  revert Hfirst. unfold cache_key in Hcases. unfold translate_text.
  destruct (strip text) as [|c0 t0] eqn:Es; [done|].
  remember (lower (c0 :: t0) ++ pair_suffix source target) as key eqn:Ekey.
  remember (lower (c0 :: t0)) as clean eqn:Eclean.
  destruct Hcases as [[-> _]|(v' & [= <-] & _ & _ & -> & _)].
  - (* the first call left the cache alone: a hit, or nothing cached *)
    destruct (cache_get key c) eqn:Eg; [by intros [= -> _]|].
    destruct (fuzzy_lookup clean _ c) eqn:Ef; [by intros [= -> _]|].
    destruct (translate_stream provider sid text target source) as [chunks calls'].
    destruct chunks as [|ch chunks]; [done|].
    destruct (join (py " ") (ch :: chunks)) as [|j0 j]; [intros [= <-]; done|].
    destruct (_is_valid_translation (j0 :: j)) eqn:Ev; [|intros [= <-]; congruence].
    intros [= <- Hc _]. exfalso.
    pose proof (cache_get_cache_set key (j0 :: j) (evict c)) as Hg.
    rewrite Hc in Hg. congruence.
  - intros _. by rewrite cache_get_cache_set.
Qed.

Lemma valid_translation_is_served_again_witness :
  let provider := Some {| is_available := true;
                          provider_translate_stream := fun _ _ _ _ =>
                            [py "Buenos"; py "dias"] |} in
  let c1 := [(py "good morning_auto_es", py "Buenos dias")] in
  translate_text provider "s" (py " Good morning ") (py "es") (py "auto") c1
  = (Some (py "Buenos dias"), c1, []).
Proof.
  intros provider c1.
  apply (valid_translation_is_served_again provider "s" (py " Good morning ")
           (py "es") (py "auto") [] c1 (py "Buenos dias")
           [Build_provider_call "s" (py " Good morning ") (py "es") (py "auto")]).
  - vm_compute. reflexivity.
  - vm_compute. reflexivity.
Defined.

(** X12.  The provider is asked exactly on a cache miss: for a text that
    is not blank, with a configured provider that is available, when
    neither the exact key nor the fuzzy scan finds an entry.  It is then
    called once, with the text as given (not trimmed); in every other
    case it is not called at all. *)
Theorem provider_called_exactly_on_miss (provider : option TranslationProvider)
    (sid : string) (text target source : pystr) (c : cache) :
  let calls := (translate_text provider sid text target source c).2 in
  (calls = [] \/ calls = [Build_provider_call sid text target source])
  /\ (calls <> [] <->
      (exists p, provider = Some p /\ is_available p = true)
      /\ strip text <> []
      /\ cache_get (cache_key text target source) c = None
      /\ fuzzy_lookup (lower (strip text)) (pair_suffix source target) c = None).
Proof.
  intros calls. subst calls. unfold translate_text, cache_key.
  destruct (strip text) as [|c0 t0] eqn:Es.
  { split; [by left|]. split; [done|]. by intros (_ & H & _). }
  destruct (cache_get (lower (c0 :: t0) ++ pair_suffix source target) c) eqn:Eg.
  { split; [by left|]. split; [done|]. by intros (_ & _ & H & _). }
  destruct (fuzzy_lookup (lower (c0 :: t0)) (pair_suffix source target) c) eqn:Ef.
  { split; [by left|]. split; [done|]. by intros (_ & _ & _ & H). }
  assert (Hstream : (translate_stream provider sid text target source).2
                    = match provider with
                      | Some p => if is_available p
                                  then [Build_provider_call sid text target source]
                                  else []
                      | None => []
                      end).
  { unfold translate_stream. rewrite Es. by repeat case_match. }
  destruct (translate_stream provider sid text target source) as [chunks calls].
  cbn [snd] in Hstream. subst calls.
  match goal with
  | |- context [?x.2] =>
    assert (Hx : x.2 = match provider with
                       | Some p => if is_available p
                                   then [Build_provider_call sid text target source]
                                   else []
                       | None => []
                       end)
      by (repeat case_match; reflexivity)
  end.
  rewrite Hx. destruct provider as [p|]; [destruct (is_available p) eqn:Ea|].
  - split; [by right|]. split; [|done]. intros _. split; [by exists p|done].
  - split; [by left|]. split; [done|]. intros ((p' & [= <-] & H) & _). congruence.
  - split; [by left|]. split; [done|]. by intros ((p' & H & _) & _).
Qed.

(** X13.  The cache is written only with a valid answer of the provider:
    [translate_text] either leaves the cache as it is, or files the
    returned valid answer under the request's own key, where the next
    lookup finds it.  An answer of the provider that fails the validity
    test (an error text, or one too short) is returned to the caller all
    the same, joined from its chunks, and the cache is left as it is. *)
Theorem cache_written_only_with_valid_answers
    (provider : option TranslationProvider) (sid : string)
    (text target source : pystr) (c : cache) :
  let r := translate_text provider sid text target source c in
  (r.1.2 = c
   \/ exists v, r.1.1 = Some v
                /\ _is_valid_translation v = true
                /\ r.2 = [Build_provider_call sid text target source]
                /\ cache_get (cache_key text target source) r.1.2 = Some v)
  /\ (forall p,
        provider = Some p -> is_available p = true ->
        strip text <> [] ->
        cache_get (cache_key text target source) c = None ->
        fuzzy_lookup (lower (strip text)) (pair_suffix source target) c = None ->
        let chunks := provider_translate_stream p sid text target source in
        chunks <> [] ->
        _is_valid_translation (join (py " ") chunks) = false ->
        r = (Some (join (py " ") chunks), c,
             [Build_provider_call sid text target source])).
Proof.
  intros r.
  pose proof (translate_text_cases provider sid text target source c) as Hcases.
  fold r in Hcases. split.
  - destruct Hcases as [[Hc _]|(v & Hv & Hvalid & Hcalls & Hc & _)]; [by left|].
    right. exists v. rewrite Hc. by rewrite cache_get_cache_set.
  - intros p -> Havail Htext Hmiss Hfuzzy chunks Hchunks Hinvalid.
    subst r. clear Hcases. unfold translate_text, cache_key in *.
    destruct (strip text) as [|c0 t0] eqn:Es; [done|].
    rewrite Hmiss, Hfuzzy. unfold translate_stream. cbn [negb].
    rewrite Havail, Es. cbn [negb]. fold chunks.
    destruct chunks as [|ch chunks'] eqn:Ec; [done|].
    destruct (join (py " ") (ch :: chunks')) as [|j0 j] eqn:Ej; [reflexivity|].
    by rewrite Hinvalid.
Qed.

Lemma cache_written_only_with_valid_answers_witness :
  let provider := {| is_available := true;
                     provider_translate_stream := fun _ _ _ _ =>
                       [py "Translation"; py "failed"] |} in
  translate_text (Some provider) "s" (py "Good morning") (py "es") (py "auto") []
  = (Some (py "Translation failed"), [],
     [Build_provider_call "s" (py "Good morning") (py "es") (py "auto")]).
Proof.
  intros provider.
  apply (proj2 (cache_written_only_with_valid_answers (Some provider) "s"
                  (py "Good morning") (py "es") (py "auto") []) provider).
  - reflexivity.
  - reflexivity.
  - vm_compute. discriminate.
  - reflexivity.
  - reflexivity.
  - discriminate.
  - vm_compute. reflexivity.
Defined.

Lemma contains_occurs (s pattern : pystr) :
  contains s pattern = true <-> occurs_in pattern s.
Proof.
  unfold occurs_in. induction s as [|c s IH].
  - cbn [contains]. rewrite orb_false_r, startswith_prefix. split.
    + intros [k ->]. by exists [], k.
    + intros (before & after & H). destruct before; [|done].
      cbn in H. by exists after.
  - cbn [contains]. rewrite orb_true_iff, startswith_prefix, IH. split.
    + intros [[k ->]|(before & after & ->)].
      * by exists [], k.
      * by exists (c :: before), after.
    + intros (before & after & H). destruct before as [|c' before].
      * left. exists after. exact H.
      * right. injection H as -> ->. by exists before, after.
Qed.

(** X14.  A translation counts as valid, and so as worth caching, exactly
    when it has at least 3 characters once trimmed and none of the error
    phrases occurs anywhere in its lowercased text; a correct translation
    that happens to contain such a phrase (the "error" in "terror") is
    turned down all the same. *)
Theorem valid_translation_spec :
  (forall translation : pystr,
      _is_valid_translation translation = true <->
      3 <= length (strip translation)
      /\ forall pattern, pattern ∈ error_patterns ->
                         ~ occurs_in pattern (strip (lower translation)))
  /\ _is_valid_translation (py "El terror de la noche") = false.
Proof.
  split; [|vm_compute; reflexivity].
  intros translation. unfold _is_valid_translation.
  assert (Hex : existsb (contains (strip (lower translation))) error_patterns = false <->
                forall pattern, pattern ∈ error_patterns ->
                                ~ occurs_in pattern (strip (lower translation))).
  { rewrite <- not_true_iff_false, existsb_exists. split.
    - intros Hno pattern Hin Hocc. apply Hno. exists pattern.
      split; [by apply list_elem_of_In | by apply contains_occurs].
    - intros Hno (pattern & Hin & Hc). apply (Hno pattern).
      + by apply list_elem_of_In.
      + by apply contains_occurs. }
  destruct translation as [|c0 t0] eqn:Et.
  { split; [done|]. cbn. intros [H _]. lia. }
  rewrite <- Et in *. clear Et.
  destruct (strip translation) as [|s0 s] eqn:Es.
  { split; [done|]. cbn. intros [H _]. lia. }
  rewrite <- Es. clear Es.
  destruct (existsb (contains (strip (lower translation))) error_patterns).
  { split; [done|]. intros [_ H]. by apply Hex in H. }
  destruct (Nat.ltb_spec (length (strip translation)) 3).
  - split; [done|]. intros [H' _]. lia.
  - split; [|done]. intros _. split; [lia|]. by apply Hex.
Qed.

(** X15.  The cache's similarity test is symmetric in its two texts, and
    a text is similar to itself whatever the threshold, even when it has
    no word at all. *)
Theorem texts_are_similar_symmetric (a b : pystr) (threshold : Q) :
  _texts_are_similar a b threshold = _texts_are_similar b a threshold
  /\ _texts_are_similar a a threshold = true.
Proof.
  unfold _texts_are_similar, eqb. split.
  - assert (Hi : words a ∩ words b = words b ∩ words a).
    { apply set_eq. intros y. rewrite !elem_of_intersection. tauto. }
    assert (Hu : words a ∪ words b = words b ∪ words a).
    { apply set_eq. intros y. rewrite !elem_of_union. tauto. }
    rewrite Hi, Hu. clear Hi Hu.
    rewrite (orb_comm (bool_decide (words a = ∅))).
    destruct (decide (a = b)) as [->|Hne]; [done|].
    rewrite (bool_decide_eq_false_2 (a = b)) by done.
    by rewrite (bool_decide_eq_false_2 (b = a)) by done.
  - by rewrite bool_decide_eq_true_2.
Qed.

Lemma split_at_last (x : N) (a a' b b' : pystr) :
  x ∉ b -> x ∉ b' -> a ++ x :: b = a' ++ x :: b' -> a = a' /\ b = b'.
Proof.
  intros Hb Hb'. revert a'. induction a as [|y a IH]; intros [|y' a'] H; cbn in H.
  - injection H as ->. done.
  - injection H as <- ->. exfalso. apply Hb. apply elem_of_app. right. by left.
  - injection H as -> <-. exfalso. apply Hb'. apply elem_of_app. right. by left.
  - injection H as -> H. apply IH in H as [-> ->]. done.
Qed.

(** X16.  As long as language codes hold no underscore, two requests
    share a cache key only when their trimmed, lowercased texts and
    their language pairs are the same. *)
Theorem cache_key_tells_requests_apart
    (text1 text2 source1 source2 target1 target2 : pystr) :
  plain_code source1 -> plain_code target1 ->
  plain_code source2 -> plain_code target2 ->
  cache_key text1 target1 source1 = cache_key text2 target2 source2 ->
  lower (strip text1) = lower (strip text2)
  /\ source1 = source2 /\ target1 = target2.
Proof.
  unfold plain_code, cache_key, pair_suffix. intros Hs1 Ht1 Hs2 Ht2 Hkey.
  change (py "_") with [95%N] in Hkey. cbn [app] in Hkey.
  assert (Hkey' : (lower (strip text1) ++ 95%N :: source1) ++ 95%N :: target1
                  = (lower (strip text2) ++ 95%N :: source2) ++ 95%N :: target2).
  { rewrite <- !app_assoc. cbn [app]. exact Hkey. }
  apply split_at_last in Hkey' as [Hrest ->]; [|done|done].
  apply split_at_last in Hrest as [-> ->]; done.
Qed.

Lemma cache_key_tells_requests_apart_witness :
  lower (strip (py " Hello ")) = lower (strip (py "HELLO"))
  /\ py "auto" = py "auto" /\ py "es" = py "es".
Proof.
  apply (cache_key_tells_requests_apart (py " Hello ") (py "HELLO")
           (py "auto") (py "auto") (py "es") (py "es"));
    try (unfold plain_code; vm_compute; intros H;
         repeat (apply elem_of_cons in H as [H|H]; [discriminate|]);
         by apply elem_of_nil in H).
  vm_compute. reflexivity.
Defined.

End CacheFacts.

(** ** The provider bridge, continued *)

Module BridgeFacts.

Import AssemblyAI Lifecycle AssemblyAIFacts.

Lemma is_str_unique (v : option pyval) (a b : string) :
  is_str v a = true -> is_str v b = true -> py a = py b.
Proof.
  destruct v as [[]|]; try done. unfold is_str, eqb.
  intros Ha%bool_decide_eq_true Hb%bool_decide_eq_true. congruence.
Qed.

Lemma client_sends_app (a b : list event) :
  client_sends (a ++ b) = client_sends a ++ client_sends b.
Proof. apply flat_map_app. Qed.

Lemma spawned_app (a b : list event) : spawned (a ++ b) = spawned a ++ spawned b.
Proof. apply flat_map_app. Qed.

Lemma client_sends_send_to_client (sid : string) (m : message) (st : state) :
  client_sends (send_to_client sid m st)
  = match active_connections st !! sid with Some ws => [(ws, m)] | None => [] end.
Proof. unfold send_to_client. by destruct (active_connections st !! sid). Qed.

Lemma spawned_send_to_client (sid : string) (m : message) (st : state) :
  spawned (send_to_client sid m st) = [].
Proof. unfold send_to_client. by destruct (active_connections st !! sid). Qed.

(** X17.  The handler of provider events fails in one case only: a
    [Turn] event whose transcript is truthy but not a string raises
    [AttributeError] (which the listener catches and logs), and then
    nothing has been sent or spawned.  Every other event, whatever its
    shape, is handled without an exception. *)
Theorem handler_raises_exactly_on_non_string_transcript (cfg : Config)
    (now_iso : pystr) (sid : string) (data : event_data) (st : state) :
  let r := handle_assemblyai_message cfg now_iso sid data st in
  (r.1 = Raised AttributeError <->
   is_str (data !! "type"%string) "Turn" = true
   /\ exists v, data !! "transcript"%string = Some v
                /\ truthy v = true /\ forall s, v <> VStr s)
  /\ (r.1 = Returned \/ r.1 = Raised AttributeError)
  /\ (r.1 <> Returned -> r.2 = []).
Proof.
  intros r. subst r. unfold handle_assemblyai_message, get.
  destruct (is_str (data !! "type"%string) "Begin") eqn:EB.
  { cbn [fst snd]. split; [|split; [by left|done]]. split; [done|].
    intros [HT _]. pose proof (is_str_unique _ _ _ EB HT) as H.
    vm_compute in H. discriminate. }
  destruct (is_str (data !! "type"%string) "Turn") eqn:ET.
  2:{ assert (Hret : forall o : outcome * list event,
                 o.1 = Returned ->
                 (o.1 = Raised AttributeError <->
                  false = true /\ exists v, data !! "transcript"%string = Some v
                                 /\ truthy v = true /\ forall s, v <> VStr s)
                 /\ (o.1 = Returned \/ o.1 = Raised AttributeError)
                 /\ (o.1 <> Returned -> o.2 = [])).
      { intros o Ho. rewrite Ho. split; [|split; [by left|done]].
        split; [done|]. by intros [? _]. }
      apply Hret. by repeat case_match. }
  destruct (data !! "transcript"%string) as [v|] eqn:Ev; cbn [default from_option id].
  2:{ cbn. split; [|split; [by left|done]]. split; [done|].
      intros [_ (v & [=] & _)]. }
  destruct (truthy v) eqn:Etr; cbn [negb].
  2:{ cbn. split; [|split; [by left|done]]. split; [done|].
      intros [_ (v' & [= <-] & Hv & _)]. congruence. }
  destruct v as [| | | |s| |]; cbn [fst snd];
    try (split; [|split; [by right|done]]; split; [|done]; intros _;
         split; [done|]; eexists; split; [done|]; split; [done|]; done).
  assert (Hret : forall o : outcome * list event,
             o.1 = Returned ->
             (o.1 = Raised AttributeError <->
              true = true /\ exists v, Some (VStr s) = Some v
                            /\ truthy v = true /\ forall s, v <> VStr s)
             /\ (o.1 = Returned \/ o.1 = Raised AttributeError)
             /\ (o.1 <> Returned -> o.2 = [])).
  { intros o Ho. rewrite Ho. split; [|split; [by left|done]].
    split; [done|]. intros [_ (v' & [= <-] & _ & Hv)]. by destruct (Hv s). }
  apply Hret. by destruct (strip s).
Qed.

(** X18.  A translation is spawned at most once per event, and only for
    a [Turn] whose end-of-turn flag is truthy while translation is
    enabled: always into Spanish, for the trimmed transcript, which then
    passes the completeness test; the message handed over is the live
    transcript just sent.  Whether a client is connected plays no part:
    the same translation is spawned with nobody to receive it. *)
Theorem translation_spawned_for_complete_final_turns (cfg : Config)
    (now_iso : pystr) (sid : string) (data : event_data) (st : state) :
  let evs := (handle_assemblyai_message cfg now_iso sid data st).2 in
  length (spawned evs) <= 1
  /\ (forall s text target m, (s, text, target, m) ∈ spawned evs ->
        s = sid /\ target = py "es"
        /\ TRANSLATION_ENABLED cfg = true
        /\ is_str (data !! "type"%string) "Turn" = true
        /\ truthy (get data "end_of_turn" (VBool false)) = true
        /\ _is_text_complete_enough text = true
        /\ (exists raw, data !! "transcript"%string = Some (VStr raw)
                        /\ text = strip raw)
        /\ forall ws, active_connections st !! sid = Some ws ->
                      client_sends evs = [(ws, m)])
  /\ (forall st', spawned (handle_assemblyai_message cfg now_iso sid data st').2
                  = spawned evs).
Proof.
  intros evs. subst evs. unfold handle_assemblyai_message, get.
  destruct (is_str (data !! "type"%string) "Begin");
    [cbn; split; [lia|split; [by intros ? ? ? ? ?%elem_of_nil|done]]|].
  destruct (is_str (data !! "type"%string) "Turn").
  2:{ assert (Hnone : forall o : state -> outcome * list event,
                 (forall x, spawned (o x).2 = []) ->
                 length (spawned (o st).2) <= 1
                 /\ (forall s text target m,
                       (s, text, target, m) ∈ spawned (o st).2 ->
                       s = sid /\ target = py "es"
                       /\ TRANSLATION_ENABLED cfg = true
                       /\ false = true
                       /\ truthy (default (VBool false) (data !! "end_of_turn"%string))
                          = true
                       /\ _is_text_complete_enough text = true
                       /\ (exists raw, data !! "transcript"%string = Some (VStr raw)
                                       /\ text = strip raw)
                       /\ forall ws, active_connections st !! sid = Some ws ->
                                     client_sends (o st).2 = [(ws, m)])
                 /\ (forall st', spawned (o st').2 = spawned (o st).2)).
      { intros o Ho. rewrite !Ho. split; [cbn; lia|].
        split; [by intros ? ? ? ? ?%elem_of_nil|]. intros st'. by rewrite Ho. }
      apply (Hnone (fun x => if is_str (data !! "type"%string) "Termination"
                             then (Returned, [])
                             else match data !! "error"%string with
                                  | Some detail =>
                                    (Returned,
                                     send_to_client sid
                                       (error (TranscriptionError detail)) x)
                                  | None => (Returned, [])
                                  end)).
      intros x. repeat case_match; cbn [snd]; try done.
      apply spawned_send_to_client. }
  destruct (data !! "transcript"%string) as [v|] eqn:Ev; cbn [default from_option id];
    [|cbn; split; [lia|split; [by intros ? ? ? ? ?%elem_of_nil|done]]].
  destruct (truthy v); cbn [negb];
    [|cbn; split; [lia|split; [by intros ? ? ? ? ?%elem_of_nil|done]]].
  destruct v as [| | | |raw| |];
    try (cbn; split; [lia|split; [by intros ? ? ? ? ?%elem_of_nil|done]]).
  destruct (strip raw) as [|c0 t0] eqn:Es;
    [cbn; split; [lia|split; [by intros ? ? ? ? ?%elem_of_nil|done]]|].
  cbn [snd]. rewrite !spawned_app, !spawned_send_to_client. cbn [app].
  destruct (TRANSLATION_ENABLED cfg) eqn:Een; cbn [andb];
    [|cbn; split; [lia|split; [by intros ? ? ? ? ?%elem_of_nil|]];
      intros st'; by rewrite spawned_app, spawned_send_to_client].
  destruct (truthy (default (VBool false) (data !! "end_of_turn"%string))) eqn:Eot;
    cbn [andb];
    [|cbn; split; [lia|split; [by intros ? ? ? ? ?%elem_of_nil|]];
      intros st'; by rewrite spawned_app, spawned_send_to_client].
  destruct (_is_text_complete_enough (c0 :: t0)) eqn:Ec;
    [|cbn; split; [lia|split; [by intros ? ? ? ? ?%elem_of_nil|]];
      intros st'; by rewrite spawned_app, spawned_send_to_client].
  split; [cbn; lia|]. split.
  - intros s text target m Hin. cbn in Hin.
    apply list_elem_of_singleton in Hin. injection Hin as -> -> -> ->.
    repeat (split; [done|]). split; [by exists raw|].
    intros ws Hws. rewrite client_sends_app, client_sends_send_to_client, Hws.
    reflexivity.
  - intros st'. by rewrite spawned_app, spawned_send_to_client.
Qed.

(** X19.  The provider's error reports reach the client only on events
    of a type the handler has no branch for: such an event is answered
    with one error message carrying the report, sent to the session's
    connection; a [Begin], [Turn] or [Termination] event that carries an
    [error] field has the field ignored. *)
Theorem provider_error_reported_for_unknown_types_only (cfg : Config)
    (now_iso : pystr) (sid : string) (data : event_data) (st : state) :
  let evs := (handle_assemblyai_message cfg now_iso sid data st).2 in
  (forall ws m, SendJson ws (error m) ∈ evs <->
     known_type data = false
     /\ active_connections st !! sid = Some ws
     /\ exists detail, data !! "error"%string = Some detail
                       /\ m = TranscriptionError detail)
  /\ (known_type data = false -> length evs <= 1 /\ spawned evs = []).
Proof.
  intros evs. subst evs. unfold handle_assemblyai_message, known_type, get.
  destruct (is_str (data !! "type"%string) "Begin"); cbn [orb snd].
  { split; [|done]. intros ws m. split; [by intros ?%elem_of_nil|by intros [? _]]. }
  destruct (is_str (data !! "type"%string) "Turn"); cbn [orb].
  { split; [|done]. intros ws m. split; [|by intros [? _]].
    repeat case_match; cbn [snd]; intros Hin; send_membership Hin. }
  destruct (is_str (data !! "type"%string) "Termination"); cbn [snd].
  { split; [|done]. intros ws m. split; [by intros ?%elem_of_nil|by intros [? _]]. }
  destruct (data !! "error"%string) as [detail|]; cbn [snd].
  - unfold send_to_client. destruct (active_connections st !! sid) as [ws'|].
    + split; [|by intros _; cbn; split; [lia|]].
      intros ws m. rewrite list_elem_of_singleton. split.
      * intros [= -> ->]. split; [done|]. split; [done|]. by exists detail.
      * intros (_ & [= ->] & d & [= <-] & ->). done.
    + split; [|by intros _; cbn; split; [lia|]].
      intros ws m. split; [by intros ?%elem_of_nil|]. by intros (_ & ? & _).
  - split; [|by intros _; cbn; split; [lia|]].
    intros ws m. split; [by intros ?%elem_of_nil|]. by intros (_ & _ & d & ? & _).
Qed.

Lemma size_list_to_set_le (l : list pystr) :
  size (list_to_set l : gset pystr) <= length l.
Proof.
  induction l as [|x l IH]; cbn [list_to_set length].
  - by rewrite size_empty.
  - rewrite size_union_alt, size_singleton.
    assert (size (list_to_set l ∖ {[x]} : gset pystr) <= size (list_to_set l : gset pystr)).
    { apply subseteq_size. intros y Hy. by apply elem_of_difference in Hy as [? _]. }
    lia.
Qed.

Lemma cap_dedup_set_size (set_order : gset pystr -> list pystr) (s : gset pystr) :
  size (cap_dedup_set set_order s) <= 100.
Proof.
  unfold cap_dedup_set. destruct (Nat.ltb_spec 100 (size s)); [|lia].
  etransitivity; [apply size_list_to_set_le|]. rewrite length_drop. lia.
Qed.

Section BridgeInvariants.

Variable set_order : gset pystr -> list pystr.
Variable provider : option TranslationV2.TranslationProvider.

Lemma translate_frame (now_iso : pystr) (current_time : Q) (sid : string)
    (text target : pystr) (original : message) (st : state) :
  let st' := (translate_and_broadcast_async set_order provider now_iso
                current_time sid text target original st).1 in
  assembly_sessions st' = assembly_sessions st
  /\ active_connections st' = active_connections st
  /\ (forall other, other <> sid -> bridge_view other st' = bridge_view other st)
  /\ (forall seen, translated_texts st' !! sid = Some seen ->
                   translated_texts st !! sid = Some seen \/ size seen <= 100).
Proof.
  intros st'. subst st'. unfold translate_and_broadcast_async, bridge_view.
  destruct (throttled current_time sid st); [cbn [fst]; by eauto|].
  destruct (translated_texts st !! sid) as [seen0|] eqn:Eseen.
  - cbv beta iota zeta. rewrite Eseen. cbn [default from_option id].
    case_bool_decide;
      [cbn [fst]; repeat split; try done; intros seen Hs; left; congruence|].
    case_match;
      [cbn [fst]; repeat split; try done; intros seen Hs; left; congruence|].
    destruct (TranslationV2.translate_text _ _ _ _ _ _) as [[tr c] calls].
    cbn [fst set_translation_state assembly_sessions active_connections
         translated_texts last_translation_times].
    split; [done|]. split; [done|]. split.
    + intros other Hne. by rewrite !lookup_insert_ne.
    + intros seen. rewrite lookup_insert_eq. intros [= <-]. right.
      apply cap_dedup_set_size.
  - cbv beta iota zeta.
    cbn [set_translation_state assembly_sessions active_connections
         translated_texts last_translation_times _translation_cache].
    rewrite lookup_insert_eq. cbn [default from_option id].
    case_bool_decide; [|case_match].
    1,2: cbn [fst set_translation_state assembly_sessions active_connections
              translated_texts last_translation_times];
      (split; [done|]; split; [done|]; split;
       [intros other Hne; by rewrite lookup_insert_ne
       |intros seen; rewrite lookup_insert_eq; intros [= <-]; right;
        rewrite size_empty; lia]).
    destruct (TranslationV2.translate_text _ _ _ _ _ _) as [[tr c] calls].
    cbn [fst set_translation_state assembly_sessions active_connections
         translated_texts last_translation_times].
    split; [done|]. split; [done|]. split.
    + intros other Hne. by rewrite !lookup_insert_ne.
    + intros seen. rewrite lookup_insert_eq. intros [= <-]. right.
      apply cap_dedup_set_size.
Qed.

Lemma run_call_dedup_bounded (c : bridge_call) (st : state) :
  dedup_bounded st -> dedup_bounded (run_call set_order provider c st).1.
Proof.
  intros Hb. destruct c as [| now_iso current_time sid text target original |];
    [exact Hb| |exact Hb].
  cbn [run_call].
  pose proof (translate_frame now_iso current_time sid text target original st)
    as (_ & _ & Hother & Hown).
  intros s seen Hs. destruct (decide (s = sid)) as [->|Hne].
  - destruct (Hown seen Hs) as [Hold|Hle]; [by eapply Hb|exact Hle].
  - specialize (Hother s Hne). unfold bridge_view in Hother.
    injection Hother as _ _ Ht _. rewrite Ht in Hs. by eapply Hb.
Qed.

(** X20.  The dedup sets stay small: whatever calls the bridge has
    served since start-up, and in whatever order Python enumerates a set
    when it is cut back, no session's set of translated texts holds more
    than 100 entries. *)
Theorem dedup_sets_stay_bounded (history : list bridge_call) :
  dedup_bounded (run_calls set_order provider history init).1.
Proof.
  assert (Hgen : forall cs st, dedup_bounded st ->
                               dedup_bounded (run_calls set_order provider cs st).1).
  { intros cs. induction cs as [|c cs IH]; intros st Hb; [exact Hb|].
    cbn [run_calls].
    pose proof (run_call_dedup_bounded c st Hb) as Hb1.
    destruct (run_call set_order provider c st) as [st1 evs]. cbn [fst] in Hb1.
    specialize (IH st1 Hb1).
    destruct (run_calls set_order provider cs st1) as [st2 more]. exact IH. }
  apply Hgen. intros sid seen Hs. cbn in Hs. by rewrite lookup_empty in Hs.
Qed.

(** X21.  A translation works on its own session only: it leaves the
    provider handles and the client connections of every session as they
    are, and the dedup set and time stamp of every other session. *)
Theorem translation_touches_own_session_only (now_iso : pystr) (current_time : Q)
    (sid : string) (text target : pystr) (original : message) (st : state) :
  let st' := (translate_and_broadcast_async set_order provider now_iso
                current_time sid text target original st).1 in
  assembly_sessions st' = assembly_sessions st
  /\ active_connections st' = active_connections st
  /\ forall other, other <> sid -> bridge_view other st' = bridge_view other st.
Proof.
  intros st'.
  pose proof (translate_frame now_iso current_time sid text target original st)
    as (Ha & Hc & Hother & _).
  done.
Qed.

End BridgeInvariants.

(** X22.  The bridge's similarity score is symmetric, lies between 0 and
    1, and is 1 for two texts with the same normalized form. *)
Theorem calculate_similarity_symmetric_and_bounded (a b : pystr) :
  _calculate_similarity a b = _calculate_similarity b a
  /\ (0 <= _calculate_similarity a b <= 1)%Q
  /\ (_normalize_text a = _normalize_text b -> _calculate_similarity a b = 1%Q).
Proof.
  unfold _calculate_similarity, eqb. split; [|split].
  - destruct (decide (a = b)) as [->|Hne]; [done|].
    rewrite (bool_decide_eq_false_2 (a = b)) by done.
    rewrite (bool_decide_eq_false_2 (b = a)) by done.
    destruct (decide (_normalize_text a = _normalize_text b)) as [Heq|Hn].
    + rewrite (bool_decide_eq_true_2 _ Heq).
      by rewrite (bool_decide_eq_true_2 (_normalize_text b = _normalize_text a)).
    + rewrite (bool_decide_eq_false_2 _ Hn).
      rewrite (bool_decide_eq_false_2 (_normalize_text b = _normalize_text a)) by done.
      set (wa := list_to_set (split (_normalize_text a)) : gset pystr).
      set (wb := list_to_set (split (_normalize_text b)) : gset pystr).
      assert (Hi : wa ∩ wb = wb ∩ wa).
      { apply set_eq. intros y. rewrite !elem_of_intersection. tauto. }
      assert (Hu : wa ∪ wb = wb ∪ wa).
      { apply set_eq. intros y. rewrite !elem_of_union. tauto. }
      rewrite Hi, Hu. by rewrite (orb_comm (bool_decide (wa = ∅))).
  - case_bool_decide; [done|]. case_bool_decide; [done|].
    set (wa := list_to_set (split (_normalize_text a)) : gset pystr).
    set (wb := list_to_set (split (_normalize_text b)) : gset pystr).
    destruct (bool_decide (wa = ∅) || bool_decide (wb = ∅)); [done|].
    destruct (Nat.eqb_spec (size (wa ∪ wb)) 0) as [|Hnz]; [done|].
    assert (Hle : size (wa ∩ wb) <= size (wa ∪ wb)).
    { apply subseteq_size. intros y Hy. apply elem_of_intersection in Hy as [Hy _].
      by apply elem_of_union_l. }
    unfold Qle. cbn [Qnum Qden].
    rewrite (TranslationV2Facts.pos_of_nat_Z _ Hnz). lia.
  - intros Heq. case_bool_decide; [done|]. by rewrite bool_decide_eq_true_2.
Qed.

(** X23.  Cleaning a session up always clears its dedup set and its time
    stamp, but forgets the provider handle only when both the
    termination notice and the close went through: when either raises,
    the handle stays behind.  Client connections, the translation cache
    and every other session are left alone, and after a clean-up that
    went through a second one does nothing. *)
Theorem cleanup_clears_dedup_state_in_any_case (fault fault' : cleanup_fault)
    (sid : string) (st : state) :
  let r := cleanup_assemblyai_session fault sid st in
  translated_texts r.1 !! sid = None
  /\ last_translation_times r.1 !! sid = None
  /\ (assembly_sessions r.1 !! sid = None <->
      fault = NoFault \/ assembly_sessions st !! sid = None)
  /\ (r.2 = [] <-> assembly_sessions st !! sid = None)
  /\ active_connections r.1 = active_connections st
  /\ _translation_cache r.1 = _translation_cache st
  /\ (forall other, other <> sid -> bridge_view other r.1 = bridge_view other st)
  /\ (assembly_sessions r.1 !! sid = None ->
      cleanup_assemblyai_session fault' sid r.1 = (r.1, [])).
Proof.
  intros r. subst r. unfold cleanup_assemblyai_session, bridge_view.
  destruct (assembly_sessions st !! sid) as [ws|] eqn:Ea; [destruct fault|];
    cbn [fst snd assembly_sessions active_connections translated_texts
         last_translation_times _translation_cache set_assembly_sessions];
    split_and!; rewrite ?lookup_delete_eq, ?Ea; try done.
  all: try (intros other Hne; by rewrite ?lookup_delete_ne by done).
  all: try (intros _; rewrite ?lookup_delete_eq;
            cbn [fst snd assembly_sessions active_connections translated_texts
                 last_translation_times _translation_cache];
            by rewrite !delete_delete_eq).
  all: try (split; [by (intros _; left)|done]).
  all: try (split; [done|by intros [?|?]]).
  all: try (split; [by (intros _; right)|done]).
Qed.

Ltac red_state :=
  cbn [fst snd app store_connection set_assembly_sessions set_active_connections
       assembly_sessions active_connections translated_texts
       last_translation_times _translation_cache].

(** Closes the goals left by a case analysis of the endpoint: nested
    conjunctions and implications over concrete event lists. *)
Ltac absurd_member H :=
  repeat (apply elem_of_cons in H as [H|H]; [discriminate H|]);
  by apply elem_of_nil in H.

Ltac settle_leaf :=
  solve
    [ done
    | congruence
    | by eexists
    | by eauto 6 using list_elem_of_here, list_elem_of_further
    | by rewrite ?lookup_delete_ne, ?lookup_insert_ne by done
    | left; settle_leaf
    | right; settle_leaf
    | eexists; settle_leaf ].

Ltac settle_open :=
  repeat match goal with
         | |- _ /\ _ => split
         | |- _ <-> _ => split
         | |- _ -> _ => intro
         | |- forall _, _ => intro
         | H : _ /\ _ |- _ => destruct H
         | H : exists _, _ |- _ => destruct H
         | H : _ \/ _ |- _ => destruct H
         | H : is_Some None |- _ => by destruct H
         | H : true = false |- _ => discriminate H
         | H : false = true |- _ => discriminate H
         | H : _ ∈ _ |- _ => first [absurd_member H | clear H]
         end;
  try settle_leaf.

(** X24.  How opening the endpoint ends.  The receive loop is entered
    exactly when the welcome message went out and the session has a
    provider handle, found or newly dialled; the new socket is then the
    session's connection and no dedup set or time stamp has changed.
    Otherwise no connection is kept for the session: either the setup
    failed, the client was sent the error and no handle exists, or the
    welcome message could not be sent, and then the exit has cleaned the
    provider session up, clearing the session's dedup set and time stamp
    and forgetting the handle unless the clean-up failed too.  The
    provider is dialled only for a session without a handle, and no
    other session is touched. *)
Theorem endpoint_open_outcome (api_key : string) (dial : dial_result)
    (welcome_raises : bool) (fault : cleanup_fault) (session_id : string)
    (ws : client_ws) (st : state) :
  let sid := if bool_decide (session_id = ""%string)
             then "test_session"%string else session_id in
  let r := endpoint_open api_key dial welcome_raises fault session_id ws st in
  (r.2 = true <->
   welcome_raises = false
   /\ (is_Some (assembly_sessions st !! sid)
       \/ (api_key <> ""%string /\ exists h, dial = Dialed h)))
  /\ (r.2 = true ->
      active_connections r.1.1 !! sid = Some ws
      /\ is_Some (assembly_sessions r.1.1 !! sid)
      /\ SendConnected ws sid ∈ r.1.2
      /\ translated_texts r.1.1 = translated_texts st
      /\ last_translation_times r.1.1 = last_translation_times st)
  /\ (r.2 = false ->
      active_connections r.1.1 !! sid = None
      /\ ((exists e, SendSetupError ws e ∈ r.1.2) \/ SendConnected ws sid ∈ r.1.2)
      /\ ((exists e, SendSetupError ws e ∈ r.1.2) ->
          assembly_sessions r.1.1 !! sid = None
          /\ translated_texts r.1.1 = translated_texts st
          /\ last_translation_times r.1.1 = last_translation_times st)
      /\ (SendConnected ws sid ∈ r.1.2 ->
          welcome_raises = true
          /\ translated_texts r.1.1 !! sid = None
          /\ last_translation_times r.1.1 !! sid = None
          /\ (assembly_sessions r.1.1 !! sid = None <-> fault = NoFault)))
  /\ (ProviderConnect sid ∈ r.1.2 ->
      assembly_sessions st !! sid = None /\ api_key <> ""%string)
  /\ (forall other, other <> sid -> bridge_view other r.1.1 = bridge_view other st).
Proof.
  intros sid r. subst r. unfold endpoint_open. fold sid. generalize sid. clear sid.
  intros sid.
  unfold setup_assemblyai_session, endpoint_teardown, cleanup_assemblyai_session,
    bridge_view.
  red_state.
  destruct (assembly_sessions st !! sid) as [h0|] eqn:Eh;
    [|case_bool_decide as Hkey; [|destruct dial as [h|e]]];
    destruct welcome_raises; red_state; rewrite ?Eh, ?lookup_insert_eq; red_state;
    try destruct fault; red_state;
    rewrite ?lookup_delete_eq, ?lookup_insert_eq, ?Eh;
    settle_open.
Qed.

Section SharedKey.

Variable set_order : gset pystr -> list pystr.
Variable provider : option TranslationV2.TranslationProvider.

(** X25.  Two clients under one session key share one fate.  The second
    to arrive finds the provider handle and takes the connection entry
    over without a new dial.  When the endpoint of either of them then
    ends, at a disconnect or at once because the welcome message could
    not be sent, its exit deletes that entry and cleans the provider
    session up, so that from then on the bridge sends nothing to any
    client of the session, and forwards no audio once the handle is
    gone. *)
Theorem leaving_client_cuts_off_the_session (api_key : string) (dial : dial_result)
    (welcome_raises : bool) (fault : cleanup_fault) (sid : string)
    (ws2 : client_ws) (h : provider_ws) (st : state) (calls : list bridge_call) :
  sid <> ""%string ->
  assembly_sessions st !! sid = Some h ->
  let opened := endpoint_open api_key dial welcome_raises fault sid ws2 st in
  let st' := if opened.2
             then (endpoint_teardown fault sid opened.1.1).1
             else opened.1.1 in
  opened.2 = negb welcome_raises
  /\ (forall s, ProviderConnect s ∉ opened.1.2)
  /\ (opened.2 = true -> opened.1.1 = store_connection sid ws2 st)
  /\ bridge_view sid st'
     = (match fault with NoFault => None | _ => Some h end, None, None, None)
  /\ (forall w m, (sid, SendJson w m) ∉ (run_calls set_order provider calls st').2)
  /\ (fault = NoFault ->
      forall audio err, process_audio_chunk sid audio err st' = (Returned, [])).
Proof.
  intros Hsid Hh opened st'.
  assert (Hteardown : forall s0 : state,
             assembly_sessions s0 !! sid = Some h ->
             bridge_view sid (endpoint_teardown fault sid s0).1
             = (match fault with NoFault => None | _ => Some h end,
                None, None, None)).
  { intros s0 Hs0.
    unfold endpoint_teardown, bridge_view, cleanup_assemblyai_session.
    red_state. rewrite ?Hs0. red_state. rewrite ?Hs0.
    destruct fault; red_state; by rewrite ?lookup_delete_eq, ?Hs0. }
  assert (Hopened : opened
                    = if welcome_raises
                      then ((endpoint_teardown fault sid
                               (store_connection sid ws2 st)).1,
                            SendConnected ws2 sid
                              :: (endpoint_teardown fault sid
                                    (store_connection sid ws2 st)).2,
                            false)
                      else (store_connection sid ws2 st,
                            [SendConnected ws2 sid], true)).
  { subst opened. unfold endpoint_open.
    rewrite (bool_decide_eq_false_2 _ Hsid). red_state. rewrite Hh.
    destruct welcome_raises; [|reflexivity].
    by destruct (endpoint_teardown fault sid (store_connection sid ws2 st)). }
  assert (Hview : bridge_view sid st'
                  = (match fault with NoFault => None | _ => Some h end,
                     None, None, None)).
  { subst st'. rewrite Hopened.
    destruct welcome_raises; cbn [fst snd]; by apply Hteardown. }
  split_and!.
  - rewrite Hopened. by destruct welcome_raises.
  - intros s Hin. rewrite Hopened in Hin.
    destruct welcome_raises; cbn [fst snd] in Hin.
    + unfold endpoint_teardown, cleanup_assemblyai_session in Hin.
      red_state. revert Hin. red_state. rewrite Hh.
      destruct fault; cbn [fst snd]; intros Hin;
        repeat (apply elem_of_cons in Hin as [Hin|Hin]; [discriminate|]);
        by apply elem_of_nil in Hin.
    + apply list_elem_of_singleton in Hin. discriminate.
  - rewrite Hopened. by destruct welcome_raises.
  - exact Hview.
  - unfold bridge_view in Hview. injection Hview as _ Hconn _ _.
    intros w m Hin. apply run_calls_sends in Hin. congruence.
  - unfold bridge_view in Hview. injection Hview as Hhandle _ _ _.
    intros -> audio err. unfold process_audio_chunk. rewrite Hhandle.
    by destruct (length audio <? 100).
Qed.

End SharedKey.

Lemma leaving_client_cuts_off_the_session_witness :
  let st := (endpoint_open "key" (Dialed 7) false NoFault "s" 1 init).1.1 in
  let opened := endpoint_open "key" (Dialed 8) true NoFault "s" 2 st in
  bridge_view "s" (if opened.2
                   then (endpoint_teardown NoFault "s" opened.1.1).1
                   else opened.1.1)
  = (None, None, None, None).
Proof.
  intros st opened.
  destruct (leaving_client_cuts_off_the_session (fun s => elements s) None "key"
              (Dialed 8) true NoFault "s" 2 7 st
              [ProcessAudioChunk "s" (repeat Byte.x00 200) (Some (py "closed"))])
    as (_ & _ & _ & Hview & _).
  - discriminate.
  - vm_compute. reflexivity.
  - exact Hview.
Defined.

End BridgeFacts.

(** ** The paragraph refiner, continued *)

Module RefinerFacts.

Import AssemblyAI AIProviders RefinerEvents.

Section Refiner.

Variable py_float : pystr -> option Q.
Variable cfg : Config.

(** What the three backends have in common: at most one request, no
    broadcast of their own, a retry only after a request, and a result
    only from a request that spawned no retry. *)
Lemma backend_events (w : world) (sid : string) (text : pystr) (pd : paragraph_data) :
  let b := if bool_decide (PARAGRAPHIZER_PROVIDER cfg = "gemini"%string)
           then _refine_with_gemini cfg w text
           else if bool_decide (PARAGRAPHIZER_PROVIDER cfg = "http"%string)
           then _refine_with_http py_float cfg w sid text pd
           else _refine_with_lemur py_float cfg w text in
  List.filter is_broadcast b.2 = []
  /\ length (List.filter is_request b.2) <= 1
  /\ length (List.filter is_retry b.2) <= 1
  /\ (List.filter is_retry b.2 <> [] -> List.filter is_request b.2 <> [])
  /\ (truthy b.1 = true ->
      length (List.filter is_request b.2) = 1 /\ List.filter is_retry b.2 = []).
Proof.
  intros b. subst b.
  unfold _refine_with_gemini, _refine_with_http, _refine_with_lemur.
  repeat case_match; cbn [fst snd List.filter is_broadcast is_request is_retry length];
    split_and!; try done; try lia; try (intros [=]); try (by intros _).
Qed.

(** X26.  A refinement attempt records its time only together with a
    broadcast: either the cooldown table is left as it is and nothing is
    broadcast, or the session's entry is set to the time of the attempt
    and exactly one refined paragraph, trimmed and not empty, is
    broadcast, after exactly one request to the backend and with no
    retry spawned.  No attempt makes more than one request or spawns
    more than one retry, and no other session's entry is touched. *)
Theorem refinement_recorded_with_broadcast_only (w : world) (now : Q)
    (completed_at : pystr) (sid : string) (pd : paragraph_data) (st : state) :
  let r := refine_and_broadcast_paragraph py_float cfg w now completed_at sid pd st in
  length (List.filter is_request r.2) <= 1
  /\ length (List.filter is_retry r.2) <= 1
  /\ (forall other, other <> sid -> r.1 !! other = st !! other)
  /\ ((r.1 = st /\ List.filter is_broadcast r.2 = [])
      \/ (exists raw c text,
            strip raw = c :: text
            /\ r.1 = <[sid := now]> st
            /\ List.filter is_broadcast r.2
               = [Broadcast_paragraph_refined sid (paragraph_number pd) (c :: text)
                    completed_at]
            /\ length (List.filter is_request r.2) = 1
            /\ List.filter is_retry r.2 = [])).
Proof.
  intros r. subst r. unfold refine_and_broadcast_paragraph.
  set (cooling := match st !! sid with
                  | Some last_call => _
                  | None => None
                  end).
  destruct cooling as [delay|].
  { cbn. split_and!; [lia|lia|done|by left]. }
  set (text := match buffered_text pd with [] => _ | t => t end).
  destruct text as [|t0 text'] eqn:Et.
  { cbn. split_and!; [lia|lia|done|by left]. }
  pose proof (backend_events w sid (t0 :: text') pd)
    as (Hb & Hreq & Hret & _ & Hres).
  cbv zeta in Hb, Hreq, Hret, Hres.
  destruct (if bool_decide (PARAGRAPHIZER_PROVIDER cfg = "gemini"%string)
            then _refine_with_gemini cfg w (t0 :: text')
            else if bool_decide (PARAGRAPHIZER_PROVIDER cfg = "http"%string)
            then _refine_with_http py_float cfg w sid (t0 :: text') pd
            else _refine_with_lemur py_float cfg w (t0 :: text')) as [v evs].
  cbn [fst snd] in *.
  destruct (truthy v) eqn:Etr;
    [|cbn [fst snd]; split_and!; [done|done|done|by left]].
  destruct v as [| | | |raw| |];
    try (cbn [fst snd]; split_and!; [done|done|done|by left]).
  destruct (strip raw) as [|c stripped] eqn:Es;
    [cbn [fst snd]; split_and!; [done|done|done|by left]|].
  destruct (Hres eq_refl) as [Hone Hnone].
  cbn [fst snd]. rewrite !List.filter_app, !length_app, Hb, Hnone, Hone.
  cbn [List.filter is_request is_retry is_broadcast length app].
  split_and!; [lia|lia| |].
  - intros other Hne. apply lookup_insert_ne. congruence.
  - right. exists raw, c, stripped. by split_and!.
Qed.

(** X27.  Inside the cooldown the backend is not asked: the only thing
    the attempt does is to spawn one retry for the same paragraph,
    delayed by what is left of the cooldown.  That retry starts when the
    cooldown is over, so unless the table has changed meanwhile it is
    not deferred again: a retry it spawns comes from a request. *)
Theorem cooling_down_defers_the_request (w : world) (now : Q)
    (completed_at : pystr) (sid : string) (pd : paragraph_data) (st : state)
    (last : Q) :
  st !! sid = Some last ->
  (now - last < inject_Z (PARAGRAPHIZER_COOLDOWN_SECONDS cfg))%Q ->
  let delay := (inject_Z (PARAGRAPHIZER_COOLDOWN_SECONDS cfg) - (now - last))%Q in
  refine_and_broadcast_paragraph py_float cfg w now completed_at sid pd st
  = (st, [CreateTask_refine_after_delay sid pd delay])
  /\ (0 < delay)%Q
  /\ (retry_not_before now delay
      == last + inject_Z (PARAGRAPHIZER_COOLDOWN_SECONDS cfg))%Q
  /\ forall w' later completed_at',
       (retry_not_before now delay <= later)%Q ->
       let r := refine_and_broadcast_paragraph py_float cfg w' later completed_at'
                  sid pd st in
       List.filter is_retry r.2 <> [] -> List.filter is_request r.2 <> [].
Proof.
  intros Hlast Hcool delay.
  set (cooldown := inject_Z (PARAGRAPHIZER_COOLDOWN_SECONDS cfg)) in *.
  assert (Hpos : (0 < delay)%Q).
  { subst delay. apply Qlt_minus_iff in Hcool. exact Hcool. }
  assert (Hstart : (retry_not_before now delay == last + cooldown)%Q).
  { unfold retry_not_before.
    rewrite (proj2 (Qle_bool_iff 0 delay) (Qlt_le_weak _ _ Hpos)).
    subst delay. ring. }
  split_and!; [|exact Hpos|exact Hstart|].
  - unfold refine_and_broadcast_paragraph. rewrite Hlast. fold cooldown.
    destruct (Qle_bool cooldown (now - last)) eqn:Ele; [|reflexivity].
    apply Qle_bool_iff in Ele. by apply Qlt_not_le in Hcool.
  - intros w' later completed_at' Hlater r. subst r.
    rewrite Hstart in Hlater.
    assert (Hover : Qle_bool cooldown (later - last) = true).
    { apply Qle_bool_iff. apply (Qplus_le_r _ _ last).
      assert (E : (last + (later - last) == later)%Q) by ring.
      by rewrite E. }
    unfold refine_and_broadcast_paragraph. rewrite Hlast. fold cooldown.
    rewrite Hover. cbn [negb].
    set (text := match buffered_text pd with [] => _ | t => t end).
    destruct text as [|t0 text'] eqn:Et; [done|].
    pose proof (backend_events w' sid (t0 :: text') pd)
      as (Hb & _ & _ & Hretry & _).
    cbv zeta in Hb, Hretry.
    destruct (if bool_decide (PARAGRAPHIZER_PROVIDER cfg = "gemini"%string)
              then _refine_with_gemini cfg w' (t0 :: text')
              else if bool_decide (PARAGRAPHIZER_PROVIDER cfg = "http"%string)
              then _refine_with_http py_float cfg w' sid (t0 :: text') pd
              else _refine_with_lemur py_float cfg w' (t0 :: text')) as [v evs].
    cbn [fst snd] in *.
    assert (Hsame : forall o : state * list event,
               (o.2 = evs \/ exists e, is_retry e = false /\ is_request e = false
                                       /\ o.2 = evs ++ [e]) ->
               List.filter is_retry o.2 <> [] -> List.filter is_request o.2 <> []).
    { intros o [->|(e & He1 & He2 & ->)]; [exact Hretry|].
      rewrite !List.filter_app. cbn [List.filter]. rewrite He1, He2, !app_nil_r.
      exact Hretry. }
    apply Hsame.
    destruct (truthy v); [|by left].
    destruct v; try (by left).
    destruct (strip s) as [|c stripped]; [by left|].
    right.
    by exists (Broadcast_paragraph_refined sid (paragraph_number pd) (c :: stripped)
                 completed_at').
Qed.

End Refiner.

Lemma cooling_down_defers_the_request_witness :
  let cfg := Build_Config false (py "es") "" "http" "http://refiner.local" 5 10 in
  let pd := {| buffered_text := py "and it came to pass";
               verses := []; paragraph_number := Some 1%Z |} in
  refine_and_broadcast_paragraph (fun _ => None) cfg
    {| gemini_text := None; http_post := None; lemur_post := None |}
    2 (py "2025-01-01T00:00:02") "s" pd {[ "s"%string := 0%Q ]}
  = ({[ "s"%string := 0%Q ]}, [CreateTask_refine_after_delay "s" pd (inject_Z 5 - (2 - 0))]).
Proof.
  intros cfg pd.
  apply (cooling_down_defers_the_request (fun _ => None) cfg
           {| gemini_text := None; http_post := None; lemur_post := None |}
           2 (py "2025-01-01T00:00:02") "s" pd {[ "s"%string := 0%Q ]} 0).
  - reflexivity.
  - vm_compute. reflexivity.
Defined.

End RefinerFacts.

(** ** Trimming and splitting *)

Module StringFacts.

Import CacheKeys.

Lemma lstrip_suffix (s : pystr) : exists spaces, s = spaces ++ lstrip s.
Proof.
  induction s as [|c s [spaces IH]]; [by exists []|]. cbn [lstrip].
  destruct (isspace c); [|by exists []].
  exists (c :: spaces). cbn. by rewrite <- IH.
Qed.

Lemma lstrip_fixed (s : pystr) :
  match s with [] => True | c :: _ => isspace c = false end -> lstrip s = s.
Proof. destruct s as [|c s]; [done|]. cbn. by intros ->. Qed.

Lemma lstrip_idempotent (s : pystr) : lstrip (lstrip s) = lstrip s.
Proof. apply lstrip_fixed, lstrip_head. Qed.

(** A text is its trimmed form between two margins. *)
Lemma strip_margins (s : pystr) :
  exists left right, s = left ++ strip s ++ right /\ lstrip s = strip s ++ right.
Proof.
  destruct (lstrip_suffix s) as [left Hl].
  destruct (lstrip_suffix (rev (lstrip s))) as [right Hr].
  exists left, (rev right).
  assert (Ha : lstrip s = strip s ++ rev right).
  { unfold strip, rstrip. rewrite <- rev_app_distr, <- Hr. by rewrite rev_involutive. }
  split; [|exact Ha]. by rewrite <- Ha.
Qed.

Lemma strip_occurs (s : pystr) : occurs_in (strip s) s.
Proof. destruct (strip_margins s) as (left & right & H & _). by exists left, right. Qed.

Lemma strip_idempotent (s : pystr) : strip (strip s) = strip s.
Proof.
  assert (Hl : lstrip (strip s) = strip s).
  { apply lstrip_fixed. destruct (strip_margins s) as (_ & right & _ & Ha).
    pose proof (lstrip_head s) as Hh. rewrite Ha in Hh.
    by destruct (strip s). }
  unfold strip at 1. rewrite Hl. unfold rstrip, strip, rstrip.
  by rewrite rev_involutive, lstrip_idempotent.
Qed.

Lemma occurs_in_elem (pattern s : pystr) (c : N) :
  occurs_in pattern s -> c ∈ pattern -> c ∈ s.
Proof.
  intros (before & after & ->) Hc. apply elem_of_app. right.
  apply elem_of_app. by left.
Qed.

Lemma occurs_in_trans (a b c : pystr) : occurs_in a b -> occurs_in b c -> occurs_in a c.
Proof.
  intros (b1 & b2 & ->) (c1 & c2 & ->). exists (c1 ++ b1), (b2 ++ c2).
  by rewrite <- !app_assoc.
Qed.

End StringFacts.

(** ** Normalized texts *)

Module NormalizeFacts.

Import AssemblyAI.

Lemma split_aux_words (s cur word : pystr) :
  (forall c, c ∈ cur -> isspace c = false) ->
  word ∈ split_aux cur s ->
  word <> [] /\ forall c, c ∈ word -> isspace c = false /\ (c ∈ cur \/ c ∈ s).
Proof.
  revert cur. induction s as [|x s IH]; intros cur Hcur; cbn [split_aux].
  - destruct cur as [|y cur]; [by intros ?%elem_of_nil|].
    intros ->%list_elem_of_singleton. split.
    + intros H. apply (f_equal (@length N)) in H. rewrite length_rev in H. done.
    + intros c Hc. apply list_elem_of_In, in_rev, list_elem_of_In in Hc.
      split; [by apply Hcur|by left].
  - assert (Hrest : word ∈ split_aux [] s ->
                    word <> [] /\ forall c, c ∈ word ->
                                   isspace c = false /\ (c ∈ cur \/ c ∈ x :: s)).
    { intros [Hne Hw]%IH; [|by intros c ?%elem_of_nil]. split; [done|].
      intros c Hc. destruct (Hw c Hc) as [Hs [H|H]]; [by apply elem_of_nil in H|].
      split; [done|]. right. by right. }
    destruct (isspace x) eqn:Ex.
    + destruct cur as [|y cur]; [exact Hrest|].
      intros [->|H]%elem_of_cons; [|by apply Hrest]. split.
      * intros H. apply (f_equal (@length N)) in H. rewrite length_rev in H. done.
      * intros c Hc. apply list_elem_of_In, in_rev, list_elem_of_In in Hc.
        split; [by apply Hcur|by left].
    + intros [Hne Hw]%IH.
      * split; [done|]. intros c Hc. destruct (Hw c Hc) as [Hs [H|H]].
        -- split; [done|]. apply elem_of_cons in H as [->|H]; [right; by left|by left].
        -- split; [done|]. right. by right.
      * intros c [->|Hc]%elem_of_cons; [done|by apply Hcur].
Qed.

Lemma split_aux_word (word rest cur : pystr) :
  (forall c, c ∈ word -> isspace c = false) ->
  split_aux cur (word ++ rest) = split_aux (rev word ++ cur) rest.
Proof.
  revert cur. induction word as [|x word IH]; intros cur Hw; [done|].
  cbn [app split_aux]. rewrite (Hw x) by (by left).
  rewrite IH by (intros c Hc; apply Hw; by right).
  cbn [rev]. by rewrite <- app_assoc.
Qed.

(** Splitting what was joined with single spaces gives the words back. *)
Lemma split_join (parts : list pystr) :
  (forall word, word ∈ parts ->
                word <> [] /\ forall c, c ∈ word -> isspace c = false) ->
  split (join (py " ") parts) = parts.
Proof.
  change (py " ") with [32%N]. unfold split.
  induction parts as [|word parts IH]; intros Hparts; [done|].
  destruct (Hparts word) as [Hne Hw]; [by left|].
  assert (Hrev : rev word <> []).
  { intros H. apply (f_equal (@length N)) in H. rewrite length_rev in H.
    by destruct word. }
  destruct parts as [|word' parts].
  - cbn [join]. rewrite <- (app_nil_r word) at 1.
    rewrite split_aux_word by done. cbn [split_aux]. rewrite app_nil_r.
    destruct (rev word) eqn:Er; [done|]. by rewrite <- Er, rev_involutive.
  - change (join [32%N] (word :: word' :: parts))
      with (word ++ [32%N] ++ join [32%N] (word' :: parts)).
    rewrite split_aux_word by done. cbn [app split_aux].
    change (isspace 32) with true. cbv iota. rewrite app_nil_r.
    destruct (rev word) eqn:Er; [done|]. rewrite <- Er, rev_involutive.
    f_equal. apply IH. intros w Hin. apply Hparts. by right.
Qed.

Lemma join_elem (parts : list pystr) (c : N) :
  c ∈ join [32%N] parts -> c = 32%N \/ exists word, word ∈ parts /\ c ∈ word.
Proof.
  induction parts as [|word parts IH]; [by intros ?%elem_of_nil|].
  destruct parts as [|word' parts].
  - cbn [join]. intros Hc. right. exists word. split; [by left|done].
  - change (join [32%N] (word :: word' :: parts))
      with (word ++ [32%N] ++ join [32%N] (word' :: parts)).
    intros [Hc|[Hc|Hc]%elem_of_app]%elem_of_app.
    + right. exists word. split; [by left|done].
    + left. by apply list_elem_of_singleton in Hc.
    + destruct (IH Hc) as [->|(w & Hw & Hcw)]; [by left|].
      right. exists w. split; [by right|done].
Qed.

Lemma lower_char_idempotent (c : N) : lower_char (lower_char c) = lower_char c.
Proof.
  unfold lower_char.
  destruct ((65 <=? c) && (c <=? 90))%N eqn:E1.
  { apply andb_true_iff in E1 as [H1%N.leb_le H2%N.leb_le].
    destruct (N.leb_spec 65 (c + 32)); destruct (N.leb_spec (c + 32) 90);
      destruct (N.leb_spec 192 (c + 32)); destruct (N.leb_spec (c + 32) 222);
      cbn [andb]; try lia; reflexivity. }
  destruct ((192 <=? c) && (c <=? 222) && negb (c =? 215))%N eqn:E2.
  { apply andb_true_iff in E2 as [E2 _].
    apply andb_true_iff in E2 as [H1%N.leb_le H2%N.leb_le].
    destruct (N.leb_spec 65 (c + 32)); destruct (N.leb_spec (c + 32) 90);
      destruct (N.leb_spec 192 (c + 32)); destruct (N.leb_spec (c + 32) 222);
      cbn [andb]; try lia; reflexivity. }
  by rewrite E1, E2.
Qed.

Lemma filter_all {A : Type} (f : A -> bool) (l : list A) :
  (forall x, x ∈ l -> f x = true) -> List.filter f l = l.
Proof.
  induction l as [|x l IH]; intros H; [done|]. cbn [List.filter].
  rewrite (H x) by (by left). f_equal. apply IH. intros y Hy. apply H. by right.
Qed.

Lemma map_fixed {A : Type} (f : A -> A) (l : list A) :
  (forall x, x ∈ l -> f x = x) -> map f l = l.
Proof.
  induction l as [|x l IH]; intros H; [done|]. cbn [map].
  rewrite (H x) by (by left). f_equal. apply IH. intros y Hy. apply H. by right.
Qed.

(** The function on every text, the empty one included. *)
Lemma normalize_text_unfold (text : pystr) :
  _normalize_text text
  = join (py " ")
      (List.filter (fun word => negb (existsb (eqb word) filler_words)
                                && (2 <? length word)%nat)
         (split (List.filter (fun c => is_word_char c || isspace c)
                   (join (py " ") (split (lower text)))))).
Proof. by destruct text. Qed.

(** X28.  Normalizing is idempotent: a normalized text normalizes to
    itself, so the texts kept in a session's dedup set compare with new
    ones on equal terms.  Its words, split at white space, are the kept
    words: each is longer than 2 characters, none is a filler word, and
    all are made of lowercased word characters. *)
Theorem normalize_text_idempotent (text : pystr) :
  _normalize_text (_normalize_text text) = _normalize_text text
  /\ forall word, word ∈ split (_normalize_text text) ->
       (2 < length word)%nat
       /\ (word ∉ filler_words)
       /\ forall c, c ∈ word -> is_word_char c = true /\ lower_char c = c.
Proof.
  rewrite (normalize_text_unfold text).
  set (keep := fun word : pystr =>
                 negb (existsb (eqb word) filler_words) && (2 <? length word)%nat).
  set (is_kept_char := fun c : N => is_word_char c || isspace c).
  set (t2 := join (py " ") (split (lower text))).
  set (t3 := List.filter is_kept_char t2).
  set (kept := List.filter keep (split t3)).
  assert (Ht2 : forall c, c ∈ t2 -> lower_char c = c).
  { intros c Hc. subst t2. change (py " ") with [32%N] in Hc.
    apply join_elem in Hc as [->|(w & Hw & Hc)]; [done|].
    apply split_aux_words in Hw as [_ Hw]; [|by intros x ?%elem_of_nil].
    destruct (Hw c Hc) as [_ [H|H]]; [by apply elem_of_nil in H|].
    apply list_elem_of_fmap in H as (c0 & -> & _). apply lower_char_idempotent. }
  assert (Ht3 : forall c, c ∈ t3 -> is_kept_char c = true /\ lower_char c = c).
  { intros c Hc. apply list_elem_of_In, filter_In in Hc as [Hc Hk].
    split; [done|]. by apply Ht2, list_elem_of_In. }
  assert (Hkept : forall word, word ∈ kept ->
             keep word = true /\ word <> []
             /\ forall c, c ∈ word ->
                  isspace c = false /\ is_word_char c = true /\ lower_char c = c).
  { intros word Hw. apply list_elem_of_In, filter_In in Hw as [Hw Hk].
    apply list_elem_of_In, split_aux_words in Hw as [Hne Hw];
      [|by intros x ?%elem_of_nil].
    split; [done|]. split; [done|]. intros c Hc.
    destruct (Hw c Hc) as [Hs [H|H]]; [by apply elem_of_nil in H|].
    destruct (Ht3 c H) as [Hk' Hl]. split; [done|]. split; [|done].
    unfold is_kept_char in Hk'. rewrite Hs, orb_false_r in Hk'. exact Hk'. }
  assert (Hsplit : split (join (py " ") kept) = kept).
  { apply split_join. intros word Hw. destruct (Hkept word Hw) as (_ & Hne & Hc).
    split; [done|]. intros c Hin. by destruct (Hc c Hin). }
  assert (Hchars : forall c, c ∈ join (py " ") kept ->
                             is_kept_char c = true /\ lower_char c = c).
  { intros c Hc. change (py " ") with [32%N] in Hc.
    apply join_elem in Hc as [->|(w & Hw & Hc)]; [done|].
    destruct (Hkept w Hw) as (_ & _ & Hcs). destruct (Hcs c Hc) as (_ & Hwc & Hl).
    split; [|done]. unfold is_kept_char. by rewrite Hwc. }
  split.
  - rewrite (normalize_text_unfold (join (py " ") kept)).
    fold keep. fold is_kept_char.
    assert (Hlower : lower (join (py " ") kept) = join (py " ") kept).
    { unfold lower. apply map_fixed. intros c Hc. by destruct (Hchars c Hc). }
    rewrite Hlower, Hsplit.
    rewrite (filter_all is_kept_char) by (intros c Hc; by destruct (Hchars c Hc)).
    rewrite Hsplit.
    rewrite (filter_all keep) by (intros w Hw; by destruct (Hkept w Hw)).
    reflexivity.
  - rewrite Hsplit. intros word Hw. destruct (Hkept word Hw) as (Hk & _ & Hcs).
    unfold keep in Hk. apply andb_true_iff in Hk as [Hfill Hlen].
    split; [by apply Nat.ltb_lt in Hlen|]. split.
    + intros Hin. apply negb_true_iff, not_true_iff_false in Hfill. apply Hfill.
      apply existsb_exists. exists word. split; [by apply list_elem_of_In|].
      unfold eqb. by apply bool_decide_eq_true_2.
    + intros c Hc. by destruct (Hcs c Hc) as (_ & ? & ?).
Qed.

End NormalizeFacts.

(** ** Sentence splitting *)

Module TimeFacts.

Import CacheKeys TimeUtils StringFacts.

Lemma re_split_aux_occurs (s cur : pystr) (in_run : bool) (piece : pystr) :
  piece ∈ re_split_aux cur in_run s -> occurs_in piece (rev cur ++ s).
Proof.
  revert cur in_run. induction s as [|c s IH]; intros cur in_run; cbn [re_split_aux].
  - intros ->%list_elem_of_singleton. exists [], []. by rewrite !app_nil_r.
  - assert (Hrest : piece ∈ re_split_aux [] true s ->
                    occurs_in piece (rev cur ++ c :: s)).
    { intros (before & after & H)%IH. cbn in H.
      exists (rev cur ++ c :: before), after. rewrite H.
      by rewrite <- app_assoc. }
    destruct (is_sentence_end c).
    + destruct in_run; [exact Hrest|].
      intros [->|H]%elem_of_cons; [|by apply Hrest]. by exists [], (c :: s).
    + intros H%IH. cbn [rev] in H. by rewrite <- app_assoc in H.
Qed.

Lemma re_split_aux_plain (s cur : pystr) (in_run : bool) (piece : pystr) :
  (forall c, c ∈ cur -> is_sentence_end c = false) ->
  piece ∈ re_split_aux cur in_run s ->
  forall c, c ∈ piece -> is_sentence_end c = false.
Proof.
  revert cur in_run. induction s as [|c s IH]; intros cur in_run Hcur;
    cbn [re_split_aux].
  - intros ->%list_elem_of_singleton x Hx. apply Hcur.
    by apply list_elem_of_In, in_rev, list_elem_of_In in Hx.
  - assert (Hnil : forall x : N, x ∈ ([] : pystr) -> is_sentence_end x = false)
      by (by intros x ?%elem_of_nil).
    destruct (is_sentence_end c) eqn:Ec.
    + destruct in_run; [by apply IH|].
      intros [->|H]%elem_of_cons; [|by eapply IH].
      intros x Hx. apply Hcur.
      by apply list_elem_of_In, in_rev, list_elem_of_In in Hx.
    + apply IH. intros x [->|Hx]%elem_of_cons; [done|by apply Hcur].
Qed.

Lemma re_split_aux_whole (s cur : pystr) (in_run : bool) :
  (forall c, c ∈ s -> is_sentence_end c = false) ->
  re_split_aux cur in_run s = [rev cur ++ s].
Proof.
  revert cur in_run. induction s as [|c s IH]; intros cur in_run Hs;
    cbn [re_split_aux].
  - by rewrite app_nil_r.
  - rewrite (Hs c) by (by left). rewrite IH.
    + cbn [rev]. by rewrite <- app_assoc.
    + intros x Hx. apply Hs. by right.
Qed.

(** X29.  [split_into_sentences] gives nothing for a blank text.  Every
    sentence it gives is a piece of the text that is not empty, carries
    no white space at either end and holds none of the characters
    [. ! ?]; a text that is not blank and holds none of them is one
    sentence, its trimmed self. *)
Theorem sentences_are_trimmed_pieces (text : pystr) :
  (strip text = [] -> split_into_sentences text = [])
  /\ (forall s, s ∈ split_into_sentences text ->
        s <> [] /\ strip s = s /\ occurs_in s text
        /\ forall c, c ∈ s -> is_sentence_end c = false)
  /\ (strip text <> [] -> (forall c, c ∈ text -> is_sentence_end c = false) ->
      split_into_sentences text = [strip text]).
Proof.
  unfold split_into_sentences. split; [by intros ->|]. split.
  - destruct (strip text) as [|t0 t] eqn:Et; [by intros s ?%elem_of_nil|].
    intros s (piece & -> & Hin)%list_elem_of_fmap.
    apply list_elem_of_In, filter_In in Hin as [Hin Hkeep].
    apply list_elem_of_In in Hin.
    split; [by destruct (strip piece)|]. split; [apply strip_idempotent|].
    pose proof (re_split_aux_occurs text [] false piece Hin) as Hocc.
    split.
    + eapply occurs_in_trans; [apply strip_occurs|exact Hocc].
    + intros c Hc.
      apply (re_split_aux_plain text [] false piece); [by intros x ?%elem_of_nil|done|].
      by apply (occurs_in_elem _ _ _ (strip_occurs piece)).
  - intros Hne Hplain. destruct (strip text) as [|t0 t] eqn:Et; [done|].
    unfold re_split. rewrite (re_split_aux_whole text [] false Hplain).
    cbn [rev app List.filter]. rewrite Et. cbn [map]. by rewrite Et.
Qed.

Lemma sentences_are_trimmed_pieces_witness :
  split_into_sentences (py "  and it came to pass ")
  = [strip (py "  and it came to pass ")].
Proof.
  apply (proj2 (proj2 (sentences_are_trimmed_pieces (py "  and it came to pass ")))).
  - vm_compute. discriminate.
  - intros c Hc. vm_compute in Hc.
    repeat (apply elem_of_cons in Hc as [->|Hc]; [reflexivity|]).
    by apply elem_of_nil in Hc.
Defined.

End TimeFacts.

(** ** The language cache of the legacy service *)

Module LanguageCacheFacts.

Import TranslationV2 TranslationV1 CacheFacts.

Lemma cache_language_length (text_sample language : pystr) (c : language_cache) :
  length c <= 101 -> length (_cache_language text_sample language c) <= 101.
Proof.
  intros Hc. unfold _cache_language.
  destruct (Nat.ltb_spec 100 (length c)).
  - etransitivity; [apply cache_set_length|]. rewrite length_drop. lia.
  - etransitivity; [apply cache_set_length|]. lia.
Qed.

(** X30.  The language cache answers with what was stored last for a
    sample and with ["auto"] for a sample it does not know, and it stays
    small: starting empty, it never holds more than 101 entries, however
    many detections are cached. *)
Theorem language_cache_round_trip_and_bound
    (detections : list (pystr * pystr)) (text_sample language : pystr) :
  let c := fold_left (fun c d => _cache_language d.1 d.2 c) detections [] in
  _get_cached_language text_sample (_cache_language text_sample language c) = language
  /\ length c <= 101
  /\ (cache_get text_sample c = None -> _get_cached_language text_sample c = py "auto").
Proof.
  intros c. split; [|split].
  - unfold _get_cached_language, _cache_language. by rewrite cache_get_cache_set.
  - subst c.
    assert (Hgen : forall ds c0, length c0 <= 101 ->
               length (fold_left (fun c d => _cache_language d.1 d.2 c) ds c0) <= 101).
    { intros ds. induction ds as [|d ds IH]; intros c0 Hc0; [exact Hc0|].
      cbn [fold_left]. apply IH. by apply cache_language_length. }
    apply Hgen. cbn. lia.
  - intros Hnone. unfold _get_cached_language. by rewrite Hnone.
Qed.

End LanguageCacheFacts.
